(** * Nova Sonic streaming session: model and properties

    A shallow embedding of [nova_sonic_class_streaming.py]
    (class [SimpleNovaSonicStreaming]): the handshake sent by
    [initialize_stream], the guarded [_send_raw_event], the audio turn calls,
    the three asyncio loops ([_process_audio_input], [_process_responses],
    [play_output_audio]) and [stop_conversation], together with the base64
    payload coding the audio events rely on.

    The object's fields and the outside world (the Bedrock stream, the
    PyAudio device, the asyncio tasks) are one explicit state, [World];
    methods are computations in a state-and-exception monad in which a raised
    exception keeps the state reached so far, as in Python. *)

From Stdlib Require Import ZArith List String Ascii Bool Lia.
From Stdlib.Strings Require Import Byte.
Import ListNotations.
Open Scope Z_scope.
Open Scope string_scope.
Open Scope list_scope.

(** ** Base64, as [base64.b64encode] and [base64.b64decode] compute it *)

Module Base64.

Definition byte_to_Z (b : byte) : Z := Z.of_N (Byte.to_N b).

(** Storing into an [unsigned char]: the value modulo 256. *)
Definition Z_to_byte (n : Z) : byte :=
  match Byte.of_N (Z.to_N (n mod 256)) with
  | Some b => b
  | None => x00
  end.

Definition table_b2a_base64 : list ascii :=
  list_ascii_of_string
    "ABCDEFGHIJKLMNOPQRSTUVWXYZabcdefghijklmnopqrstuvwxyz0123456789+/".

Definition BASE64_PAD : ascii := "="%char.

Definition b2a (i : Z) : ascii := nth (Z.to_nat i) table_b2a_base64 BASE64_PAD.

Fixpoint index_of (c : ascii) (l : list ascii) (i : Z) : option Z :=
  match l with
  | [] => None
  | d :: l' => if Ascii.eqb c d then Some i else index_of c l' (i + 1)
  end.

(** The decoding table: the sextet of an alphabet character, [None] for
    every other character. *)
Definition a2b (c : ascii) : option Z := index_of c table_b2a_base64 0.

(** [binascii.b2a_base64] without the trailing newline: three bytes give
    four sextets, a remainder of one or two bytes is padded with [=]. *)
Fixpoint b2a_base64 (bs : list byte) : list ascii :=
  match bs with
  | [] => []
  | [x] =>
      let x := byte_to_Z x in
      [b2a (Z.shiftr x 2); b2a (Z.shiftl (Z.land x 3) 4); BASE64_PAD; BASE64_PAD]
  | [x; y] =>
      let x := byte_to_Z x in
      let y := byte_to_Z y in
      [b2a (Z.shiftr x 2);
       b2a (Z.lor (Z.shiftl (Z.land x 3) 4) (Z.shiftr y 4));
       b2a (Z.shiftl (Z.land y 15) 2); BASE64_PAD]
  | x :: y :: z :: rest =>
      let x := byte_to_Z x in
      let y := byte_to_Z y in
      let z := byte_to_Z z in
      b2a (Z.shiftr x 2)
      :: b2a (Z.lor (Z.shiftl (Z.land x 3) 4) (Z.shiftr y 4))
      :: b2a (Z.lor (Z.shiftl (Z.land y 15) 2) (Z.shiftr z 6))
      :: b2a (Z.land z 63)
      :: b2a_base64 rest
  end.

(** [binascii.a2b_base64] in its default, non-strict mode: characters
    outside the alphabet are skipped, a pad sequence that completes the
    current quad ends the input, and leftover sextets are an error
    ([None]).  [quad_pos] is the position inside the current group of four,
    [leftchar] the bits not yet written, [pads] the pad characters seen
    since the last sextet. *)
Fixpoint a2b_base64 (cs : list ascii) (quad_pos : nat) (leftchar : Z)
    (pads : nat) (out : list byte) : option (list byte) :=
  match cs with
  | [] => if Nat.eqb quad_pos 0 then Some out else None
  | c :: rest =>
      if Ascii.eqb c BASE64_PAD then
        if Nat.leb 2 quad_pos then
          if Nat.leb 4 (quad_pos + S pads) then Some out
          else a2b_base64 rest quad_pos leftchar (S pads) out
        else a2b_base64 rest quad_pos leftchar pads out
      else
        match a2b c with
        | None => a2b_base64 rest quad_pos leftchar pads out
        | Some this_ch =>
            match quad_pos with
            | O => a2b_base64 rest 1 this_ch 0 out
            | 1%nat =>
                a2b_base64 rest 2 (Z.land this_ch 15) 0
                  (out ++ [Z_to_byte (Z.lor (Z.shiftl leftchar 2) (Z.shiftr this_ch 4))])
            | 2%nat =>
                a2b_base64 rest 3 (Z.land this_ch 3) 0
                  (out ++ [Z_to_byte (Z.lor (Z.shiftl leftchar 4) (Z.shiftr this_ch 2))])
            | _ =>
                a2b_base64 rest 0 0 0
                  (out ++ [Z_to_byte (Z.lor (Z.shiftl leftchar 6) this_ch)])
            end
        end
  end.

(** [base64.b64encode(bs).decode('utf-8')]: the base64 text of [bs]. *)
Definition b64encode (bs : list byte) : string :=
  string_of_list_ascii (b2a_base64 bs).

Definition is_ascii (c : ascii) : bool := (N_of_ascii c <? 128)%N.

Inductive b64error := NonAsciiText | IncorrectPadding.

(** [base64.b64decode(s)] on a [str]: the text must be ASCII
    ([ValueError] otherwise), then [a2b_base64] ([binascii.Error] on
    failure). *)
Definition b64decode (s : string) : b64error + list byte :=
  let cs := list_ascii_of_string s in
  if forallb is_ascii cs then
    match a2b_base64 cs 0 0 0 [] with
    | Some bs => inr bs
    | None => inl IncorrectPadding
    end
  else inl NonAsciiText.

End Base64.

(** ** JSON documents and the Python operations the code applies to them *)

(** What [json.dumps] is given and [json.loads] returns.  A [JObj] is a
    dict in insertion order, with distinct keys; [JDec m e] is the float
    literal [m * 10^e].  The text produced by [json.dumps] and its UTF-8
    bytes are not modelled: a wire message is identified with its
    document. *)
#[warnings="-register-all"]
Inductive json :=
| JNull
| JBool (b : bool)
| JInt (n : Z)
| JDec (mantissa exponent : Z)
| JStr (s : string)
| JArr (items : list json)
| JObj (fields : list (string * json)).

Inductive exn :=
| StopAsyncIteration
| JSONDecodeError
| UnicodeDecodeError
| TypeError
| KeyError
| ValueError
| BinasciiError
| AttributeError
| TransportError
| OSError.

Inductive result (A : Type) :=
| Ok (a : A)
| Raise (e : exn).
Arguments Ok {A} a.
Arguments Raise {A} e.

Fixpoint lookup (key : string) (fields : list (string * json)) : option json :=
  match fields with
  | [] => None
  | (k, v) :: rest => if String.eqb key k then Some v else lookup key rest
  end.

Fixpoint contains (needle hay : string) : bool :=
  String.prefix needle hay
  || match hay with
     | EmptyString => false
     | String _ hay' => contains needle hay'
     end.

Definition is_str (key : string) (j : json) : bool :=
  match j with
  | JStr s => String.eqb key s
  | _ => false
  end.

(** [key in j] for a string [key]: key membership in a dict, element
    membership in a list, substring test in a string, [TypeError] on
    anything else. *)
Definition py_in (key : string) (j : json) : result bool :=
  match j with
  | JObj fields =>
      Ok (match lookup key fields with Some _ => true | None => false end)
  | JArr items => Ok (existsb (is_str key) items)
  | JStr s => Ok (contains key s)
  | _ => Raise TypeError
  end.

(** [j[key]] for a string [key]. *)
Definition py_getitem (j : json) (key : string) : result json :=
  match j with
  | JObj fields =>
      match lookup key fields with
      | Some v => Ok v
      | None => Raise KeyError
      end
  | _ => Raise TypeError
  end.

(** [j[k1][k2][k3]] *)
Definition getitem3 (j : json) (k1 k2 k3 : string) : result json :=
  match py_getitem j k1 with
  | Ok j1 =>
      match py_getitem j1 k2 with
      | Ok j2 => py_getitem j2 k3
      | Raise e => Raise e
      end
  | Raise e => Raise e
  end.

(** [base64.b64decode(j)] on a value taken from a document. *)
Definition base64_b64decode (j : json) : result (list byte) :=
  match j with
  | JStr s =>
      match Base64.b64decode s with
      | inr bs => Ok bs
      | inl Base64.NonAsciiText => Raise ValueError
      | inl Base64.IncorrectPadding => Raise BinasciiError
      end
  | _ => Raise TypeError
  end.

(** ** The session object and its surroundings *)

(** An entry of [audio_input_queue], as [add_audio_chunk] builds it. *)
Record chunk := mkChunk {
  chunk_audio_bytes : list byte;
  chunk_prompt_name : string;
  chunk_content_name : string
}.

(** A PyAudio stream: whether [is_active()] answers true, and whether
    [close()] was called on it.  PyAudio refuses a closed stream:
    [is_active()] and [start_stream()] raise [OSError] on it. *)
Record pa_stream := mkPaStream { pa_running : bool; pa_closed : bool }.

Inductive device := InputDevice | OutputDevice.

(** The bytes of an inbound message, by what [bytes.decode('utf-8')] and
    [json.loads] make of them. *)
Inductive payload :=
| NotUtf8
| NotJson
| Json (json_data : json).

(** What [await_output()] followed by [receive()] yields: an exception, or
    a result whose [value.bytes_] is empty or missing ([None]) or holds a
    payload. *)
Inductive recv :=
| RecvRaise (e : exn)
| RecvResult (bytes_ : option payload).

(** Calls made on the collaborators, oldest first. *)
Inductive call :=
| OpenStream
| Send (event : json) (accepted : bool)
| CloseInputStream
| StopStream (d : device)
| CloseDevice (d : device)
| Terminate
| WriteOutput (audio_data : list byte).

(** Where an asyncio task stands: not created, about to test its [while]
    condition, suspended in its [await], or returned. *)
Inductive pc := NotStarted | AtHead | Suspended | Finished.

Record World := mkWorld {
  (* fields of SimpleNovaSonicStreaming *)
  voice_id : string;
  region : string;
  bedrock_client : bool;            (* false: None *)
  stream_response : bool;           (* false: None *)
  is_active : bool;
  audio_input_queue : list chunk;
  audio_output_queue : list (list byte);
  prompt_name : string;
  content_name : string;
  audio_content_name : string;
  input_stream : option pa_stream;
  output_stream : option pa_stream;
  (* the outside *)
  trace : list call;
  inbound : list recv;              (* what the stream will deliver *)
  responses_task : pc;              (* _process_responses *)
  audio_input_task : pc;            (* _process_audio_input *)
  playback_task : pc                (* play_output_audio *)
}.

Definition set_bedrock_client (v : bool) (w : World) : World :=
  mkWorld (voice_id w) (region w) v (stream_response w) (is_active w)
    (audio_input_queue w) (audio_output_queue w) (prompt_name w)
    (content_name w) (audio_content_name w) (input_stream w) (output_stream w)
    (trace w) (inbound w) (responses_task w) (audio_input_task w)
    (playback_task w).

Definition set_stream_response (v : bool) (w : World) : World :=
  mkWorld (voice_id w) (region w) (bedrock_client w) v (is_active w)
    (audio_input_queue w) (audio_output_queue w) (prompt_name w)
    (content_name w) (audio_content_name w) (input_stream w) (output_stream w)
    (trace w) (inbound w) (responses_task w) (audio_input_task w)
    (playback_task w).

Definition set_is_active (v : bool) (w : World) : World :=
  mkWorld (voice_id w) (region w) (bedrock_client w) (stream_response w) v
    (audio_input_queue w) (audio_output_queue w) (prompt_name w)
    (content_name w) (audio_content_name w) (input_stream w) (output_stream w)
    (trace w) (inbound w) (responses_task w) (audio_input_task w)
    (playback_task w).

Definition set_audio_input_queue (v : list chunk) (w : World) : World :=
  mkWorld (voice_id w) (region w) (bedrock_client w) (stream_response w)
    (is_active w) v (audio_output_queue w) (prompt_name w)
    (content_name w) (audio_content_name w) (input_stream w) (output_stream w)
    (trace w) (inbound w) (responses_task w) (audio_input_task w)
    (playback_task w).

Definition set_audio_output_queue (v : list (list byte)) (w : World) : World :=
  mkWorld (voice_id w) (region w) (bedrock_client w) (stream_response w)
    (is_active w) (audio_input_queue w) v (prompt_name w)
    (content_name w) (audio_content_name w) (input_stream w) (output_stream w)
    (trace w) (inbound w) (responses_task w) (audio_input_task w)
    (playback_task w).

Definition set_input_stream (v : option pa_stream) (w : World) : World :=
  mkWorld (voice_id w) (region w) (bedrock_client w) (stream_response w)
    (is_active w) (audio_input_queue w) (audio_output_queue w) (prompt_name w)
    (content_name w) (audio_content_name w) v (output_stream w)
    (trace w) (inbound w) (responses_task w) (audio_input_task w)
    (playback_task w).

Definition set_output_stream (v : option pa_stream) (w : World) : World :=
  mkWorld (voice_id w) (region w) (bedrock_client w) (stream_response w)
    (is_active w) (audio_input_queue w) (audio_output_queue w) (prompt_name w)
    (content_name w) (audio_content_name w) (input_stream w) v
    (trace w) (inbound w) (responses_task w) (audio_input_task w)
    (playback_task w).

Definition set_trace (v : list call) (w : World) : World :=
  mkWorld (voice_id w) (region w) (bedrock_client w) (stream_response w)
    (is_active w) (audio_input_queue w) (audio_output_queue w) (prompt_name w)
    (content_name w) (audio_content_name w) (input_stream w) (output_stream w)
    v (inbound w) (responses_task w) (audio_input_task w)
    (playback_task w).

Definition set_inbound (v : list recv) (w : World) : World :=
  mkWorld (voice_id w) (region w) (bedrock_client w) (stream_response w)
    (is_active w) (audio_input_queue w) (audio_output_queue w) (prompt_name w)
    (content_name w) (audio_content_name w) (input_stream w) (output_stream w)
    (trace w) v (responses_task w) (audio_input_task w)
    (playback_task w).

Definition set_responses_task (v : pc) (w : World) : World :=
  mkWorld (voice_id w) (region w) (bedrock_client w) (stream_response w)
    (is_active w) (audio_input_queue w) (audio_output_queue w) (prompt_name w)
    (content_name w) (audio_content_name w) (input_stream w) (output_stream w)
    (trace w) (inbound w) v (audio_input_task w)
    (playback_task w).

Definition set_audio_input_task (v : pc) (w : World) : World :=
  mkWorld (voice_id w) (region w) (bedrock_client w) (stream_response w)
    (is_active w) (audio_input_queue w) (audio_output_queue w) (prompt_name w)
    (content_name w) (audio_content_name w) (input_stream w) (output_stream w)
    (trace w) (inbound w) (responses_task w) v
    (playback_task w).

Definition set_playback_task (v : pc) (w : World) : World :=
  mkWorld (voice_id w) (region w) (bedrock_client w) (stream_response w)
    (is_active w) (audio_input_queue w) (audio_output_queue w) (prompt_name w)
    (content_name w) (audio_content_name w) (input_stream w) (output_stream w)
    (trace w) (inbound w) (responses_task w) (audio_input_task w)
    v.

(** How the collaborators answer: whether a client can be built, whether
    the bidirectional stream opens, and whether the [k]-th [send] on the
    stream (counting from 0) is accepted or raises. *)
Record Env := mkEnv {
  client_ok : bool;
  open_ok : bool;
  send_ok : nat -> bool
}.

(** ** State and exceptions *)

Definition M (A : Type) : Type := World -> result A * World.

Definition ret {A} (a : A) : M A := fun w => (Ok a, w).

Definition bind {A B} (m : M A) (k : A -> M B) : M B :=
  fun w =>
    match m w with
    | (Ok a, w') => k a w'
    | (Raise e, w') => (Raise e, w')
    end.

Definition raise {A} (e : exn) : M A := fun w => (Raise e, w).

(** [try: m  except Exception as e: h e] *)
Definition try_except {A} (m : M A) (h : exn -> M A) : M A :=
  fun w =>
    match m w with
    | (Ok a, w') => (Ok a, w')
    | (Raise e, w') => h e w'
    end.

Definition get : M World := fun w => (Ok w, w).

Definition modify (f : World -> World) : M unit := fun w => (Ok tt, f w).

Definition lift {A} (r : result A) : M A := fun w => (r, w).

Definition emit (c : call) : M unit :=
  modify (fun w => set_trace (trace w ++ [c]) w).

Declare Scope session_scope.
Delimit Scope session_scope with session.
Notation "x <- m ;; k" := (bind m (fun x => k))
  (at level 61, m at next level, right associativity) : session_scope.
Notation "m ;; k" := (bind m (fun _ => k))
  (at level 61, right associativity) : session_scope.
Open Scope session_scope.

Definition run {A} (m : M A) (w : World) : World := snd (m w).

(** ** The events of the wire protocol *)

Definition session_start : json :=
  JObj [("event", JObj [("sessionStart", JObj
    [("inferenceConfiguration", JObj
       [("maxTokens", JInt 1024);
        ("topP", JDec 95 (-2));
        ("temperature", JDec 7 (-1))])])])].

Definition prompt_start (w : World) : json :=
  JObj [("event", JObj [("promptStart", JObj
    [("promptName", JStr (prompt_name w));
     ("audioOutputConfiguration", JObj
       [("mediaType", JStr "audio/lpcm");
        ("sampleRateHertz", JInt 24000);
        ("sampleSizeBits", JInt 16);
        ("channelCount", JInt 1);
        ("voiceId", JStr (voice_id w));
        ("encoding", JStr "base64");
        ("audioType", JStr "SPEECH")])])])].

Definition content_start_system (w : World) : json :=
  JObj [("event", JObj [("contentStart", JObj
    [("promptName", JStr (prompt_name w));
     ("contentName", JStr (content_name w));
     ("type", JStr "TEXT");
     ("role", JStr "SYSTEM");
     ("interactive", JBool true);
     ("textInputConfiguration", JObj [("mediaType", JStr "text/plain")])])])].

Definition system_message (w : World) : json :=
  JObj [("event", JObj [("textInput", JObj
    [("promptName", JStr (prompt_name w));
     ("contentName", JStr (content_name w));
     ("content", JStr
        "You are a helpful voice assistant. Greet the user and wait for their question.")])])].

Definition content_end_system (w : World) : json :=
  JObj [("event", JObj [("contentEnd", JObj
    [("promptName", JStr (prompt_name w));
     ("contentName", JStr (content_name w))])])].

Definition content_start (w : World) : json :=
  JObj [("event", JObj [("contentStart", JObj
    [("promptName", JStr (prompt_name w));
     ("contentName", JStr (audio_content_name w));
     ("type", JStr "AUDIO");
     ("interactive", JBool true);
     ("role", JStr "USER");
     ("audioInputConfiguration", JObj
       [("mediaType", JStr "audio/lpcm");
        ("sampleRateHertz", JInt 16000);
        ("sampleSizeBits", JInt 16);
        ("channelCount", JInt 1);
        ("audioType", JStr "SPEECH");
        ("encoding", JStr "base64")])])])].

Definition content_end (w : World) : json :=
  JObj [("event", JObj [("contentEnd", JObj
    [("promptName", JStr (prompt_name w));
     ("contentName", JStr (audio_content_name w))])])].

Definition audio_event (w : World) (audio_bytes : list byte) : json :=
  JObj [("event", JObj [("audioInput", JObj
    [("promptName", JStr (prompt_name w));
     ("contentName", JStr (audio_content_name w));
     ("content", JStr (Base64.b64encode audio_bytes))])])].

(** ** The methods of [SimpleNovaSonicStreaming] *)

(** The number of [send] calls made so far. *)
Fixpoint count_sends (t : list call) : nat :=
  match t with
  | [] => 0
  | Send _ _ :: rest => S (count_sends rest)
  | _ :: rest => count_sends rest
  end.

Section Methods.

Variable env : Env.

(** [BedrockRuntimeClient(config=config)] inside [try ... except: print]:
    a failure leaves [bedrock_client] as it was. *)
Definition _initialize_client : M unit :=
  if client_ok env then modify (set_bedrock_client true) else ret tt.

(** [__init__]: the identifiers are the three [uuid.uuid4()] draws. *)
Definition __init__ (voice region prompt content audio_content : string) : World :=
  run _initialize_client
    (mkWorld voice region false false false [] [] prompt content audio_content
       None None [] [] NotStarted NotStarted NotStarted).

(** [await self.bedrock_client.invoke_model_with_bidirectional_stream(...)],
    assigned to [stream_response]. *)
Definition invoke_model_with_bidirectional_stream : M unit :=
  w <- get ;;
  if negb (bedrock_client w) then raise AttributeError
  else if open_ok env then
    emit OpenStream ;; modify (set_stream_response true)
  else raise TransportError.

(** [await self.stream_response.input_stream.send(event)] *)
Definition input_stream_send (event : json) : M unit :=
  w <- get ;;
  let accepted := send_ok env (count_sends (trace w)) in
  emit (Send event accepted) ;;
  if accepted then ret tt else raise TransportError.

Definition _send_raw_event (event_json : json) : M unit :=
  w <- get ;;
  if negb (stream_response w) || negb (is_active w) then ret tt
  else
    try_except (input_stream_send event_json)
      (fun e => ret tt (* print *)).

(** The [asyncio.sleep(0.1)] after each event only suspends the caller and
    is left out. *)
Definition _send_initialization_events : M unit :=
  (* 1. SessionStart *)
  _send_raw_event session_start ;;
  (* 2. PromptStart *)
  w <- get ;;
  _send_raw_event (prompt_start w) ;;
  (* 3. ContentStart (SYSTEM) *)
  w <- get ;;
  _send_raw_event (content_start_system w) ;;
  (* 4. TextInput (SYSTEM) *)
  w <- get ;;
  _send_raw_event (system_message w) ;;
  (* 5. ContentEnd (SYSTEM) *)
  w <- get ;;
  _send_raw_event (content_end_system w).

(** [asyncio.create_task]: the task is scheduled and has not run yet. *)
Definition create_task (set_task : pc -> World -> World) : M unit :=
  modify (set_task AtHead).

Definition initialize_stream : M unit :=
  w <- get ;;
  (if negb (bedrock_client w) then _initialize_client else ret tt) ;;
  try_except
    (invoke_model_with_bidirectional_stream ;;
     modify (set_is_active true) ;;
     (* Send initialization events *)
     _send_initialization_events ;;
     (* Start processing responses *)
     create_task set_responses_task ;;
     (* Start processing audio input *)
     create_task set_audio_input_task ;;
     ret tt)
    (fun e =>
       modify (set_is_active false) ;;
       raise e).

Definition send_audio_content_start : M unit :=
  w <- get ;;
  _send_raw_event (content_start w).

Definition send_audio_content_end : M unit :=
  w <- get ;;
  _send_raw_event (content_end w).

(** [put_nowait] on an unbounded [asyncio.Queue] never raises. *)
Definition add_audio_chunk (audio_bytes : list byte) : M unit :=
  modify (fun w =>
    set_audio_input_queue
      (audio_input_queue w
       ++ [mkChunk audio_bytes (prompt_name w) (audio_content_name w)]) w).

Definition is_empty {A} (l : list A) : bool :=
  match l with [] => true | _ => false end.

Definition _input_callback (in_data : list byte) : M unit :=
  w <- get ;;
  if is_active w && negb (is_empty in_data) then add_audio_chunk in_data
  else ret tt.

(** One scheduling step of the task running [_process_audio_input]: from
    the loop head it tests [is_active]; in [await self.audio_input_queue.get()]
    (no timeout) it stays suspended while the queue is empty, and otherwise
    runs the loop body on the entry it takes.  The body never raises:
    [_send_raw_event] handles the send error itself. *)
Definition _process_audio_input : M unit :=
  w <- get ;;
  match audio_input_task w with
  | AtHead =>
      if is_active w then modify (set_audio_input_task Suspended)
      else modify (set_audio_input_task Finished)
  | Suspended =>
      match audio_input_queue w with
      | [] => ret tt
      | data :: rest =>
          modify (set_audio_input_queue rest) ;;
          modify (set_audio_input_task AtHead) ;;
          let audio_bytes := chunk_audio_bytes data in
          if is_empty audio_bytes then ret tt (* continue *)
          else
            w <- get ;;
            _send_raw_event (audio_event w audio_bytes)
      end
  | _ => ret tt
  end.

(** The innermost [try] of [_process_responses]: decode, parse, and route
    an [audioOutput] event to the playback queue. *)
Definition handle_bytes (p : payload) : M unit :=
  match p with
  | NotUtf8 => raise UnicodeDecodeError
  | NotJson => raise JSONDecodeError
  | Json json_data =>
      has_event <- lift (py_in "event" json_data) ;;
      if has_event then
        event <- lift (py_getitem json_data "event") ;;
        has_audio <- lift (py_in "audioOutput" event) ;;
        if has_audio then
          audio_content <-
            lift (getitem3 json_data "event" "audioOutput" "content") ;;
          audio_bytes <- lift (base64_b64decode audio_content) ;;
          modify (fun w =>
            set_audio_output_queue (audio_output_queue w ++ [audio_bytes]) w)
        else ret tt
      else ret tt
  end.

(** The body of the [while] loop, between the receive and the handlers
    that [break]: a raised exception here ends the loop. *)
Definition receive_one (r : recv) : M unit :=
  match r with
  | RecvRaise e => raise e
  | RecvResult None => ret tt
  | RecvResult (Some p) =>
      try_except (handle_bytes p)
        (fun e =>
           match e with
           | JSONDecodeError => ret tt (* pass *)
           | _ => raise e
           end)
  end.

(** One scheduling step of the task running [_process_responses].  Leaving
    the loop, by the [while] test or by a [break], runs the [finally]. *)
Definition _process_responses : M unit :=
  w <- get ;;
  match responses_task w with
  | AtHead =>
      if is_active w then modify (set_responses_task Suspended)
      else
        modify (set_is_active false) ;;
        modify (set_responses_task Finished)
  | Suspended =>
      match inbound w with
      | [] => ret tt
      | r :: rest =>
          modify (set_inbound rest) ;;
          try_except
            (receive_one r ;;
             modify (set_responses_task AtHead))
            (fun e =>
               (* StopAsyncIteration: break; Exception: print, break *)
               modify (set_is_active false) ;;
               modify (set_responses_task Finished))
      end
  | _ => ret tt
  end.

(** One scheduling step of the task running [play_output_audio]: its wait
    on the playback queue has a timeout, so on an empty queue the step is
    the [TimeoutError] branch, back to the loop head.  [WriteOutput] is the
    call of [output_stream.write]; an exception it raises is caught in the
    loop, which goes on. *)
Definition play_output_audio : M unit :=
  w <- get ;;
  match playback_task w with
  | AtHead =>
      if is_active w then modify (set_playback_task Suspended)
      else modify (set_playback_task Finished)
  | Suspended =>
      modify (set_playback_task AtHead) ;;
      match audio_output_queue w with
      | [] => ret tt (* asyncio.TimeoutError: continue *)
      | audio_data :: rest =>
          modify (set_audio_output_queue rest) ;;
          if negb (is_empty audio_data) && is_active w
             && match output_stream w with Some _ => true | None => false end
          then emit (WriteOutput audio_data)
          else ret tt
      end
  | _ => ret tt
  end.

(** [if st: if st.is_active(): st.stop_stream()] and [st.close()].  The
    attribute keeps the stream object after [close()], so a later call finds
    it set and asks [is_active()] of a closed stream, which raises. *)
Definition close_device (d : device) (st : option pa_stream)
    (set_st : option pa_stream -> World -> World) : M unit :=
  match st with
  | Some s =>
      if pa_closed s then raise OSError
      else
        (if pa_running s then
           emit (StopStream d) ;;
           modify (set_st (Some (mkPaStream false false)))
         else ret tt) ;;
        emit (CloseDevice d) ;;
        modify (set_st (Some (mkPaStream false true)))
  | None => ret tt
  end.

Definition stop_conversation : M unit :=
  modify (set_is_active false) ;;
  (* Send audio content end *)
  send_audio_content_end ;;
  (* Stop audio streams *)
  w <- get ;;
  close_device InputDevice (input_stream w) set_input_stream ;;
  w <- get ;;
  close_device OutputDevice (output_stream w) set_output_stream ;;
  (* Close PyAudio *)
  emit Terminate ;;
  (* Close stream *)
  w <- get ;;
  if stream_response w then emit CloseInputStream else ret tt.

(** What can happen to a session once it is initialised: the caller's
    calls and the scheduling steps of the three tasks. *)
Inductive action :=
| CallSendAudioContentStart
| CallSendAudioContentEnd
| CallAddAudioChunk (audio_bytes : list byte)
| CallInputCallback (in_data : list byte)
| CallStopConversation
| StepProcessAudioInput
| StepProcessResponses
| StepPlayOutputAudio.

Definition perform (a : action) : M unit :=
  match a with
  | CallSendAudioContentStart => send_audio_content_start
  | CallSendAudioContentEnd => send_audio_content_end
  | CallAddAudioChunk audio_bytes => add_audio_chunk audio_bytes
  | CallInputCallback in_data => _input_callback in_data
  | CallStopConversation => stop_conversation
  | StepProcessAudioInput => _process_audio_input
  | StepProcessResponses => _process_responses
  | StepPlayOutputAudio => play_output_audio
  end.

Fixpoint perform_all (acts : list action) (w : World) : World :=
  match acts with
  | [] => w
  | a :: rest => perform_all rest (run (perform a) w)
  end.

End Methods.

(** ** Reading a trace *)

(** The documents handed to [send], accepted or not. *)
Fixpoint sends (t : list call) : list json :=
  match t with
  | [] => []
  | Send event _ :: rest => event :: sends rest
  | _ :: rest => sends rest
  end.

(** The variants of the wire envelope
    [{ "event": { "<variantName>": { ... } } }]. *)
Inductive event_kind :=
| SessionStart
| PromptStart
| ContentStart (type role contentName : string)
| TextInput (contentName : string)
| AudioInput (contentName : string)
| ContentEnd (contentName : string)
| Unrecognized.

Definition str_field (key : string) (fields : list (string * json)) : string :=
  match lookup key fields with
  | Some (JStr s) => s
  | _ => ""
  end.

Definition kind_of (event : json) : event_kind :=
  match event with
  | JObj [("event", JObj [(variant, JObj fields)])] =>
      if String.eqb variant "sessionStart" then SessionStart
      else if String.eqb variant "promptStart" then PromptStart
      else if String.eqb variant "contentStart" then
        ContentStart (str_field "type" fields) (str_field "role" fields)
          (str_field "contentName" fields)
      else if String.eqb variant "textInput" then
        TextInput (str_field "contentName" fields)
      else if String.eqb variant "audioInput" then
        AudioInput (str_field "contentName" fields)
      else if String.eqb variant "contentEnd" then
        ContentEnd (str_field "contentName" fields)
      else Unrecognized
  | _ => Unrecognized
  end.

(** The calls appended to the trace between [w] and [w']. *)
Definition new_calls (w w' : World) : list call :=
  skipn (List.length (trace w)) (trace w').

(** Whether the events sent so far leave an audio turn open: a
    [contentStart] of type AUDIO opens one, a [contentEnd] naming the same
    content closes it. *)
Fixpoint turn_open_from (open : option string) (events : list json) : bool :=
  match events with
  | [] => match open with Some _ => true | None => false end
  | event :: rest =>
      match kind_of event, open with
      | ContentStart type _ name, _ =>
          if String.eqb type "AUDIO" then turn_open_from (Some name) rest
          else turn_open_from open rest
      | ContentEnd name, Some current =>
          if String.eqb name current then turn_open_from None rest
          else turn_open_from open rest
      | _, _ => turn_open_from open rest
      end
  end.

Definition turn_open (w : World) : bool :=
  turn_open_from None (sends (trace w)).

(** ** Vocabulary of the properties *)

(** The outcome the stream gives to the [k]-th send after [w]. *)
Definition accepted_after (env : Env) (w : World) (k : nat) : bool :=
  send_ok env (count_sends (trace w) + k).

Definition accepted_next (env : Env) (w : World) : bool :=
  send_ok env (count_sends (trace w)).

(** [initialize_stream] gets a stream: a client exists or can be built, and
    the stream opens. *)
Definition can_open (env : Env) (w : World) : bool :=
  (bedrock_client w || client_ok env) && open_ok env.

Definition handshake (w : World) : list json :=
  [session_start; prompt_start w; content_start_system w;
   system_message w; content_end_system w].

Definition handshake_kinds (w : World) : list event_kind :=
  [SessionStart; PromptStart;
   ContentStart "TEXT" "SYSTEM" (content_name w);
   TextInput (content_name w); ContentEnd (content_name w)].

(** The five sends of the handshake, each with the outcome the stream
    gave it. *)
Definition handshake_calls (env : Env) (w : World) : list call :=
  [Send session_start (accepted_after env w 0);
   Send (prompt_start w) (accepted_after env w 1);
   Send (content_start_system w) (accepted_after env w 2);
   Send (system_message w) (accepted_after env w 3);
   Send (content_end_system w) (accepted_after env w 4)].

(** The world [initialize_stream] starts the handshake from. *)
Definition opened (w : World) : World :=
  set_trace (trace w ++ [OpenStream])
    (set_is_active true (set_stream_response true (set_bedrock_client true w))).

Definition is_running (p : pc) : bool :=
  match p with
  | AtHead | Suspended => true
  | NotStarted | Finished => false
  end.

(** Scheduling steps of the three tasks, as state transformers. *)
Definition pump (env : Env) : World -> World := run (_process_audio_input env).
Definition dispatch : World -> World := run _process_responses.
Definition play : World -> World := run play_output_audio.

(** An inbound message that [json.loads] rejects. *)
Definition malformed : recv := RecvResult (Some NotJson).

(** No device stream, or one that was not closed. *)
Definition usable (st : option pa_stream) : bool :=
  match st with
  | Some s => negb (pa_closed s)
  | None => true
  end.

(** The two device streams of a session. *)
Definition devices (w : World) : option pa_stream * option pa_stream :=
  (input_stream w, output_stream w).

(** A device stream after [close()]. *)
Definition closed (st : option pa_stream) : option pa_stream :=
  option_map (fun _ => mkPaStream false true) st.

(** The calls [stop_conversation] makes on the devices and the stream, on
    a session whose device streams are usable. *)
Definition teardown (w : World) : list call :=
  match input_stream w with
  | Some s =>
      (if pa_running s then [StopStream InputDevice] else [])
      ++ [CloseDevice InputDevice]
  | None => []
  end
  ++ match output_stream w with
     | Some s =>
         (if pa_running s then [StopStream OutputDevice] else [])
         ++ [CloseDevice OutputDevice]
     | None => []
     end
  ++ [Terminate]
  ++ (if stream_response w then [CloseInputStream] else []).

Definition stopped_streams (w : World) : World :=
  set_output_stream (closed (output_stream w))
    (set_input_stream (closed (input_stream w))
       (set_is_active false w)).

(** ** Scenarios *)

Definition all_accepted : Env := mkEnv true true (fun _ => true).

(** Every send is accepted but the [k]-th, which raises. *)
Definition fails_at (k : nat) : Env :=
  mkEnv true true (fun n => negb (Nat.eqb n k)).

Definition fresh (env : Env) : World :=
  __init__ env "matthew" "us-east-1" "prompt-1" "system-1" "audio-1".

Definition initialized (env : Env) : World :=
  run (initialize_stream env) (fresh env).

(** An initialised session with an audio turn open. *)
Definition in_turn (env : Env) : World :=
  perform_all env [CallSendAudioContentStart] (initialized env).

(** Two captured frames queued, the outbound task waiting in [get()]. *)
Definition two_frames (env : Env) : World :=
  perform_all env
    [CallSendAudioContentStart;
     CallAddAudioChunk [x01; x02]; CallAddAudioChunk [x03; x04];
     StepProcessAudioInput]
    (initialized env).

(** The outbound task went to wait on the empty capture queue, then
    [stop_conversation] was called. *)
Definition stopped_while_waiting (env : Env) : World :=
  perform_all env [StepProcessAudioInput; CallStopConversation] (in_turn env).

(** The inbound task is waiting and the stream is about to end; the
    playback task has been created. *)
Definition end_of_stream (env : Env) : World :=
  perform_all env [StepPlayOutputAudio; StepProcessResponses]
    (set_playback_task AtHead
       (set_inbound [RecvRaise StopAsyncIteration] (in_turn env))).

(** ** The device side: [setup_audio_streams] and [start_conversation] *)

(** Whether [self.p.open(...)] succeeds for the input and for the output
    device. *)
Record Audio := mkAudio {
  input_open_ok : bool;
  output_open_ok : bool
}.

(** Both opens sit in one [try]; a failure is printed and ends the method,
    keeping what was assigned before it.  A stream that PyAudio opens is
    started. *)
Definition setup_audio_streams (audio : Audio) : M unit :=
  if input_open_ok audio then
    (* Input stream *)
    modify (set_input_stream (Some (mkPaStream true false))) ;;
    if output_open_ok audio then
      (* Output stream *)
      modify (set_output_stream (Some (mkPaStream true false)))
    else ret tt (* print *)
  else ret tt (* print *).

(** [if self.input_stream: self.input_stream.start_stream()] *)
Definition start_input_stream : M unit :=
  w <- get ;;
  match input_stream w with
  | Some s =>
      if pa_closed s then raise OSError
      else modify (set_input_stream (Some (mkPaStream true false)))
  | None => ret tt
  end.

(** [start_conversation].  While it waits for Enter in the executor, the
    tasks and the device callback run: [during] is what they do, in the
    order they do it.  Cancelling the playback task and awaiting it leaves
    that task returned. *)
Definition start_conversation (env : Env) (audio : Audio)
    (during : list action) : M unit :=
  (* Setup audio streams *)
  setup_audio_streams audio ;;
  (* Send audio content start *)
  send_audio_content_start env ;;
  (* Start audio playback task *)
  create_task set_playback_task ;;
  (* Start input stream *)
  start_input_stream ;;
  (* Wait for user to press Enter *)
  modify (perform_all env during) ;;
  (* Stop conversation *)
  stop_conversation env ;;
  (* Cancel playback task *)
  modify (set_playback_task Finished).

(** A conversation from the microphone, as [start_conversation] has it
    when it waits for Enter: both devices opened, the audio turn open. *)
Definition at_the_microphone (env : Env) : World :=
  run (setup_audio_streams (mkAudio true true) ;;
       send_audio_content_start env ;;
       create_task set_playback_task ;;
       start_input_stream)
      (initialized env).

(** What runs while [start_conversation] waits for Enter: the device
    callback, captured audio, and the steps of the three tasks. *)
Definition is_background (a : action) : bool :=
  match a with
  | CallAddAudioChunk _ | CallInputCallback _
  | StepProcessAudioInput | StepProcessResponses | StepPlayOutputAudio => true
  | CallSendAudioContentStart | CallSendAudioContentEnd
  | CallStopConversation => false
  end.

(** No device stream, or one that is not running. *)
Definition stopped (st : option pa_stream) : bool :=
  match st with
  | Some s => negb (pa_running s)
  | None => true
  end.

(** Calls and task steps, with [initialize_stream] among the calls. *)
Inductive operation :=
| Initialize
| Perform (a : action).

Definition perform_operation (env : Env) (o : operation) : M unit :=
  match o with
  | Initialize => initialize_stream env
  | Perform a => perform env a
  end.

Fixpoint perform_operations (env : Env) (ops : list operation) (w : World)
    : World :=
  match ops with
  | [] => w
  | o :: rest => perform_operations env rest (run (perform_operation env o) w)
  end.

(** The events a session can put on the wire: the five of the handshake,
    the two that delimit an audio turn, and one per non-empty frame. *)
Definition session_event (w : World) (event : json) : Prop :=
  In event (handshake w ++ [content_start w; content_end w])
  \/ exists audio_bytes,
       is_empty audio_bytes = false /\ event = audio_event w audio_bytes.

(** The session-level configuration: voice and the three identifiers. *)
Definition identity (w : World) : string * string * string * string :=
  (voice_id w, prompt_name w, content_name w, audio_content_name w).

(** From [w] to [w'] the trace grew by some calls, the identity of the
    session is the same, and only events of the session went to [send]. *)
Definition step_ok (w w' : World) : Prop :=
  identity w' = identity w
  /\ exists calls,
       trace w' = trace w ++ calls /\ Forall (session_event w) (sends calls).

(** From [w] to [w'] only audio went out, and the session is the same. *)
Definition audio_only (w w' : World) : Prop :=
  identity w' = identity w
  /\ exists calls frames,
       trace w' = trace w ++ calls
       /\ sends calls = map (audio_event w) frames.

Definition non_empty (frames : list (list byte)) : list (list byte) :=
  filter (fun frame => negb (is_empty frame)) frames.

(** The queue entry [add_audio_chunk] builds for a frame. *)
Definition chunk_of (w : World) (frame : list byte) : chunk :=
  mkChunk frame (prompt_name w) (audio_content_name w).

(** The frames of the queued entries that will go out. *)
Definition frames_of (chunks : list chunk) : list (list byte) :=
  non_empty (map chunk_audio_bytes chunks).

(** Three captured entries queued, the middle one without bytes; the
    outbound task has not run yet. *)
Definition three_frames (env : Env) : World :=
  perform_all env
    [CallSendAudioContentStart;
     CallAddAudioChunk [x01; x02]; CallAddAudioChunk []; CallAddAudioChunk [x03]]
    (initialized env).

(** The writes to the output device that playing [frames] makes. *)
Definition writes (w : World) (frames : list (list byte)) : list call :=
  match output_stream w with
  | Some _ => map WriteOutput (non_empty frames)
  | None => []
  end.

(** An active session with both devices open, the playback task created
    and three frames received, the middle one empty. *)
Definition speaker_session : World :=
  set_audio_output_queue [[x01; x02]; []; [x03]]
    (set_playback_task AtHead
       (run (setup_audio_streams (mkAudio true true))
          (initialized all_accepted))).

(** An inbound document whose [event.audioOutput.content] is the text
    [content]. *)
Definition has_audio_content (json_data : json) (content : string) : Prop :=
  getitem3 json_data "event" "audioOutput" "content" = Ok (JStr content).

(** An inbound document that carries [frame] as base64 audio output. *)
Definition carries_audio (json_data : json) (frame : list byte) : Prop :=
  exists content,
    has_audio_content json_data content
    /\ Base64.b64decode content = inr frame.

Definition received (json_data : json) : recv :=
  RecvResult (Some (Json json_data)).

(** The smallest document that carries a frame. *)
Definition audio_output_document (frame : list byte) : json :=
  JObj [("event", JObj [("audioOutput", JObj
    [("content", JStr (Base64.b64encode frame))])])].

(** Messages the inbound loop passes over. *)
Inductive ignored : recv -> Prop :=
| ignored_empty : ignored (RecvResult None)
| ignored_not_json : ignored (RecvResult (Some NotJson))
| ignored_no_event fields :
    lookup "event" fields = None ->
    ignored (received (JObj fields))
| ignored_other_event fields event_fields :
    lookup "event" fields = Some (JObj event_fields) ->
    lookup "audioOutput" event_fields = None ->
    ignored (received (JObj fields))
| ignored_list items :
    existsb (is_str "event") items = false ->
    ignored (received (JArr items))
| ignored_text s :
    contains "event" s = false ->
    ignored (received (JStr s)).

Definition is_scalar (j : json) : bool :=
  match j with
  | JNull | JBool _ | JInt _ | JDec _ _ => true
  | _ => false
  end.

(** Messages that end the inbound loop. *)
Inductive fatal : recv -> Prop :=
| fatal_raise e : fatal (RecvRaise e)
| fatal_not_utf8 : fatal (RecvResult (Some NotUtf8))
| fatal_scalar j : is_scalar j = true -> fatal (received j)
| fatal_scalar_event fields j :
    lookup "event" fields = Some j -> is_scalar j = true ->
    fatal (received (JObj fields))
| fatal_no_content fields event_fields audio_fields :
    lookup "event" fields = Some (JObj event_fields) ->
    lookup "audioOutput" event_fields = Some (JObj audio_fields) ->
    lookup "content" audio_fields = None ->
    fatal (received (JObj fields))
| fatal_content_not_text fields event_fields audio_fields j :
    lookup "event" fields = Some (JObj event_fields) ->
    lookup "audioOutput" event_fields = Some (JObj audio_fields) ->
    lookup "content" audio_fields = Some j ->
    match j with JStr _ => false | _ => true end = true ->
    fatal (received (JObj fields))
| fatal_bad_base64 json_data content err :
    has_audio_content json_data content ->
    Base64.b64decode content = inl err ->
    fatal (received json_data).

(** The characters [a2b_base64] looks at: the alphabet and the pad. *)
Definition is_base64_char (c : ascii) : bool :=
  Ascii.eqb c Base64.BASE64_PAD
  || match Base64.a2b c with Some _ => true | None => false end.

(** ** The webhook: [nova_sonic_webhook.py] *)

Module Webhook.

(** [active_sessions]: a dict in insertion order. *)
Definition sessions := list (string * World).

Fixpoint dict_get (key : string) (d : sessions) : option World :=
  match d with
  | [] => None
  | (k, v) :: rest => if String.eqb key k then Some v else dict_get key rest
  end.

(** [d[key] = v]: in place when the key is there, at the end otherwise. *)
Fixpoint dict_set (key : string) (v : World) (d : sessions) : sessions :=
  match d with
  | [] => [(key, v)]
  | (k, v') :: rest =>
      if String.eqb key k then (k, v) :: rest
      else (k, v') :: dict_set key v rest
  end.

(** [del d[key]] *)
Fixpoint dict_del (key : string) (d : sessions) : sessions :=
  match d with
  | [] => []
  | (k, v) :: rest =>
      if String.eqb key k then rest else (k, v) :: dict_del key rest
  end.

Definition keys (d : sessions) : list string := map fst d.

(** What the [except Exception as e] of an endpoint caught. *)
Inductive caught :=
| CaughtHTTPException (status_code : Z)
| CaughtException (e : exn).

(** An endpoint returns a body or raises [HTTPException]. *)
Inductive response (A : Type) :=
| Returned (body : A)
| HTTPException (status_code : Z) (detail : caught).
Arguments Returned {A} body.
Arguments HTTPException {A} status_code detail.

(** The request models; fields no endpoint reads ([aws_profile], the
    [voice_id] of [AudioMessage]) are left out. *)
Record ConversationStart := mkConversationStart {
  voice_id : string;
  region : string;
  system_message : option string
}.

Record AudioMessage := mkAudioMessage {
  audio_base64 : string;
  session_id : string
}.

(** The three [uuid.uuid4()] draws of a new session object. *)
Record draws := mkDraws {
  prompt_draw : string;
  content_draw : string;
  audio_content_draw : string
}.

(** [POST /conversation/start]; [new_id] is the endpoint's own
    [uuid.uuid4()].  The credentials set up by [setup_aws_credentials] show
    in the model only through [client_ok]. *)
Definition start_conversation (env : Env) (new_id : string) (ids : draws)
    (request : ConversationStart) (active_sessions : sessions)
    : response (string * string) * sessions :=
  let nova_sonic :=
    __init__ env (voice_id request) (region request)
      (prompt_draw ids) (content_draw ids) (audio_content_draw ids) in
  match initialize_stream env nova_sonic with
  | (Ok _, nova_sonic') =>
      (* system_message: pass *)
      (Returned (new_id, voice_id request),
       dict_set new_id nova_sonic' active_sessions)
  | (Raise e, _) => (HTTPException 500 (CaughtException e), active_sessions)
  end.

(** The body of an endpoint that works on a registered session object:
    what it did to the object stays done when it raises. *)
Definition on_session (sid : string) (body : M unit)
    (active_sessions : sessions) (nova_sonic : World)
    : result unit * sessions :=
  let (r, nova_sonic') := body nova_sonic in
  (r, dict_set sid nova_sonic' active_sessions).

(** [POST /conversation/audio].  [during] is what the session's tasks do
    while the endpoint sleeps for a second. *)
Definition send_audio_message (env : Env) (request : AudioMessage)
    (during : list action) (active_sessions : sessions)
    : response string * sessions :=
  match dict_get (session_id request) active_sessions with
  | None =>
      (HTTPException 500 (CaughtHTTPException 404), active_sessions)
  | Some nova_sonic =>
      match base64_b64decode (JStr (audio_base64 request)) with
      | Raise e => (HTTPException 500 (CaughtException e), active_sessions)
      | Ok audio_bytes =>
          match
            on_session (session_id request)
              (send_audio_content_start env ;;
               add_audio_chunk audio_bytes ;;
               modify (perform_all env during) ;;
               send_audio_content_end env)
              active_sessions nova_sonic
          with
          | (Ok _, active_sessions') =>
              (Returned (session_id request), active_sessions')
          | (Raise e, active_sessions') =>
              (HTTPException 500 (CaughtException e), active_sessions')
          end
      end
  end.

(** [POST /conversation/end/{session_id}] *)
Definition end_conversation (env : Env) (sid : string)
    (active_sessions : sessions) : response string * sessions :=
  match dict_get sid active_sessions with
  | None =>
      (HTTPException 500 (CaughtHTTPException 404), active_sessions)
  | Some nova_sonic =>
      match on_session sid (stop_conversation env) active_sessions nova_sonic with
      | (Ok _, active_sessions') =>
          (Returned sid, dict_del sid active_sessions')
      | (Raise e, active_sessions') =>
          (HTTPException 500 (CaughtException e), active_sessions')
      end
  end.

(** [GET /sessions] *)
Definition list_active_sessions (active_sessions : sessions)
    : nat * list string :=
  (List.length active_sessions, keys active_sessions).

(** [POST /upload-audio]: the size and the base64 text of the file. *)
Definition upload_audio_file (audio_content : list byte) : nat * string :=
  (List.length audio_content, Base64.b64encode audio_content).

End Webhook.

(** A registry with one session, initialised, whose outbound task has
    gone to wait on the empty capture queue. *)
Definition one_session (env : Env) : Webhook.sessions :=
  [("session-1", pump env (initialized env))].

(** * Properties *)

(** ** Base64 *)

Module Base64Facts.
Import Base64.

Lemma byte_to_Z_range (b : byte) : 0 <= byte_to_Z b < 256.
Proof.
  unfold byte_to_Z. pose proof (Byte.to_N_bounded b). lia.
Qed.

Lemma Z_to_byte_to_Z (b : byte) : Z_to_byte (byte_to_Z b) = b.
Proof.
  unfold Z_to_byte. pose proof (byte_to_Z_range b) as Hr.
  rewrite Z.mod_small by exact Hr.
  unfold byte_to_Z. rewrite N2Z.id, Byte.of_to_N. reflexivity.
Qed.

(** Bits shifted left by [k] and bits below [2^k] do not overlap. *)
Lemma lor_shiftl_low (a b k : Z) :
  0 <= k -> 0 <= b < 2 ^ k -> Z.lor (Z.shiftl a k) b = a * 2 ^ k + b.
Proof.
  intros Hk Hb.
  rewrite <- Z.lxor_lor, <- Z.add_nocarry_lxor, Z.shiftl_mul_pow2; trivial.
  all: apply Z.bits_inj'; intros n Hn; rewrite Z.land_spec, Z.bits_0.
  all: destruct (Z.ltb_spec n k) as [Hlt | Hge].
  all: try (rewrite Z.shiftl_spec_low by lia; reflexivity).
  all: (replace (Z.testbit b n) with false; [ apply andb_false_r | ]).
  all: symmetry; destruct (Z.eq_dec b 0) as [-> | Hnz]; [ apply Z.bits_0 | ].
  all: apply Z.bits_above_log2; [ lia | ].
  all: apply Z.lt_le_trans with k; [ apply Z.log2_lt_pow2; lia | lia ].
Qed.

Lemma lor_mul_low (a b k : Z) :
  0 <= k -> 0 <= b < 2 ^ k -> Z.lor (a * 2 ^ k) b = a * 2 ^ k + b.
Proof.
  intros Hk Hb. rewrite <- (Z.shiftl_mul_pow2 a k) by exact Hk.
  rewrite lor_shiftl_low by assumption.
  rewrite Z.shiftl_mul_pow2 by exact Hk. reflexivity.
Qed.

Lemma a2b_b2a (i : Z) : 0 <= i < 64 -> a2b (b2a i) = Some i.
Proof.
  intros Hi.
  assert (Hall : forallb (fun n => match a2b (b2a (Z.of_nat n)) with
                                   | Some j => Z.eqb j (Z.of_nat n)
                                   | None => false
                                   end) (seq 0 64) = true)
    by (vm_compute; reflexivity).
  rewrite forallb_forall in Hall.
  specialize (Hall (Z.to_nat i)).
  rewrite Z2Nat.id in Hall by lia.
  destruct (a2b (b2a i)) as [j |].
  - f_equal. apply Z.eqb_eq. apply Hall. apply in_seq. lia.
  - discriminate Hall. apply in_seq. lia.
Qed.

Lemma b2a_not_pad (i : Z) : 0 <= i < 64 -> Ascii.eqb (b2a i) BASE64_PAD = false.
Proof.
  intros Hi.
  assert (Hall : forallb (fun n => negb (Ascii.eqb (b2a (Z.of_nat n)) BASE64_PAD))
                   (seq 0 64) = true) by (vm_compute; reflexivity).
  rewrite forallb_forall in Hall.
  specialize (Hall (Z.to_nat i)).
  rewrite Z2Nat.id in Hall by lia.
  apply negb_true_iff, Hall, in_seq. lia.
Qed.

Lemma b2a_is_ascii (i : Z) : is_ascii (b2a i) = true.
Proof.
  unfold b2a.
  assert (Hall : forallb is_ascii (table_b2a_base64 ++ [BASE64_PAD]) = true)
    by (vm_compute; reflexivity).
  rewrite forallb_forall in Hall. apply Hall.
  destruct (Nat.lt_ge_cases (Z.to_nat i) (List.length table_b2a_base64))
    as [Hlt | Hge].
  - apply in_or_app. left. apply nth_In. exact Hlt.
  - rewrite nth_overflow by exact Hge. apply in_or_app. right. left. reflexivity.
Qed.

(** Masks and shifts as remainders, quotients and products. *)
Ltac bits_to_arith :=
  change 3 with (Z.ones 2) in *; change 15 with (Z.ones 4) in *;
  change 63 with (Z.ones 6) in *;
  repeat rewrite Z.land_ones in * by lia;
  repeat rewrite Z.shiftr_div_pow2 in * by lia;
  repeat rewrite Z.shiftl_mul_pow2 in * by lia;
  change (2 ^ 2) with 4 in *; change (2 ^ 4) with 16 in *;
  change (2 ^ 6) with 64 in *.

Lemma sextet2_arith (x y : Z) :
  0 <= x < 256 -> 0 <= y < 256 ->
  Z.lor (Z.shiftl (Z.land x 3) 4) (Z.shiftr y 4) = (x mod 4) * 16 + y / 16.
Proof.
  intros Hx Hy. bits_to_arith. apply (lor_mul_low _ _ 4); [ lia | ].
  change (2 ^ 4) with 16. Z.div_mod_to_equations. lia.
Qed.

Lemma sextet3_arith (y z : Z) :
  0 <= y < 256 -> 0 <= z < 256 ->
  Z.lor (Z.shiftl (Z.land y 15) 2) (Z.shiftr z 6) = (y mod 16) * 4 + z / 64.
Proof.
  intros Hy Hz. bits_to_arith. apply (lor_mul_low _ _ 2); [ lia | ].
  change (2 ^ 2) with 4. Z.div_mod_to_equations. lia.
Qed.

Lemma sextet2_pad_arith (x : Z) :
  Z.shiftl (Z.land x 3) 4 = (x mod 4) * 16 + 0.
Proof. bits_to_arith. lia. Qed.

Lemma sextet3_pad_arith (y : Z) :
  Z.shiftl (Z.land y 15) 2 = (y mod 16) * 4 + 0.
Proof. bits_to_arith. lia. Qed.

Lemma sextet_ranges (x y z : Z) :
  0 <= x < 256 -> 0 <= y < 256 -> 0 <= z < 256 ->
  0 <= Z.shiftr x 2 < 64 /\
  0 <= (x mod 4) * 16 + 0 < 64 /\
  0 <= (x mod 4) * 16 + y / 16 < 64 /\
  0 <= (y mod 16) * 4 + 0 < 64 /\
  0 <= (y mod 16) * 4 + z / 64 < 64 /\
  0 <= Z.land z 63 < 64.
Proof.
  intros Hx Hy Hz. bits_to_arith. Z.div_mod_to_equations. lia.
Qed.

(** What the decoder rebuilds from the sextets of a group. *)
Lemma octet1 (x lo : Z) :
  0 <= x < 256 -> 0 <= lo < 16 ->
  Z.lor (Z.shiftl (Z.shiftr x 2) 2) (Z.shiftr ((x mod 4) * 16 + lo) 4) = x.
Proof.
  intros Hx Hlo. bits_to_arith.
  rewrite (lor_mul_low _ _ 2); change (2 ^ 2) with 4;
    Z.div_mod_to_equations; lia.
Qed.

Lemma octet2 (y hi lo : Z) :
  0 <= y < 256 -> 0 <= hi < 4 -> 0 <= lo < 4 ->
  Z.lor (Z.shiftl (Z.land (hi * 16 + y / 16) 15) 4)
        (Z.shiftr ((y mod 16) * 4 + lo) 2) = y.
Proof.
  intros Hy Hhi Hlo. bits_to_arith.
  rewrite (lor_mul_low _ _ 4); change (2 ^ 4) with 16;
    Z.div_mod_to_equations; lia.
Qed.

Lemma octet3 (z hi : Z) :
  0 <= z < 256 -> 0 <= hi < 16 ->
  Z.lor (Z.shiftl (Z.land (hi * 4 + z / 64) 3) 6) (Z.land z 63) = z.
Proof.
  intros Hz Hhi. bits_to_arith.
  rewrite (lor_mul_low _ _ 6); change (2 ^ 6) with 64;
    Z.div_mod_to_equations; lia.
Qed.

(** One decoder step on an alphabet character, by position in the quad. *)
Section DecoderSteps.

Variables (i : Z) (rest : list ascii) (leftchar : Z) (pads : nat).
Variable out : list byte.
Hypothesis Hi : 0 <= i < 64.

Lemma a2b_base64_quad0 :
  a2b_base64 (b2a i :: rest) 0 leftchar pads out = a2b_base64 rest 1 i 0 out.
Proof.
  cbn [a2b_base64]. rewrite b2a_not_pad, a2b_b2a by exact Hi. reflexivity.
Qed.

Lemma a2b_base64_quad1 :
  a2b_base64 (b2a i :: rest) 1 leftchar pads out =
  a2b_base64 rest 2 (Z.land i 15) 0
    (out ++ [Z_to_byte (Z.lor (Z.shiftl leftchar 2) (Z.shiftr i 4))]).
Proof.
  cbn [a2b_base64]. rewrite b2a_not_pad, a2b_b2a by exact Hi. reflexivity.
Qed.

Lemma a2b_base64_quad2 :
  a2b_base64 (b2a i :: rest) 2 leftchar pads out =
  a2b_base64 rest 3 (Z.land i 3) 0
    (out ++ [Z_to_byte (Z.lor (Z.shiftl leftchar 4) (Z.shiftr i 2))]).
Proof.
  cbn [a2b_base64]. rewrite b2a_not_pad, a2b_b2a by exact Hi. reflexivity.
Qed.

Lemma a2b_base64_quad3 :
  a2b_base64 (b2a i :: rest) 3 leftchar pads out =
  a2b_base64 rest 0 0 0 (out ++ [Z_to_byte (Z.lor (Z.shiftl leftchar 6) i)]).
Proof.
  cbn [a2b_base64]. rewrite b2a_not_pad, a2b_b2a by exact Hi. reflexivity.
Qed.

End DecoderSteps.

(** Induction on a list taken three elements at a time, as the encoder
    consumes it. *)
Lemma list_ind3 (A : Type) (P : list A -> Prop) :
  P [] -> (forall x, P [x]) -> (forall x y, P [x; y]) ->
  (forall x y z l, P l -> P (x :: y :: z :: l)) ->
  forall l, P l.
Proof.
  intros H0 H1 H2 H3.
  fix IH 1. intros [| x [| y [| z l]]].
  - exact H0.
  - apply H1.
  - apply H2.
  - apply H3, IH.
Qed.

Lemma a2b_base64_b2a_base64 (bs : list byte) :
  forall leftchar out,
    a2b_base64 (b2a_base64 bs) 0 leftchar 0 out = Some (out ++ bs).
Proof.
  induction bs as [| x | x y | x y z l IH] using list_ind3; intros lc out.
  - cbn. rewrite app_nil_r. reflexivity.
  - pose proof (byte_to_Z_range x) as Hx.
    destruct (sextet_ranges _ _ _ Hx Hx Hx) as (R1 & R2 & _).
    cbn [b2a_base64]. rewrite sextet2_pad_arith.
    rewrite a2b_base64_quad0, a2b_base64_quad1 by assumption.
    rewrite octet1, Z_to_byte_to_Z by lia.
    reflexivity.
  - pose proof (byte_to_Z_range x) as Hx. pose proof (byte_to_Z_range y) as Hy.
    destruct (sextet_ranges _ _ _ Hx Hy Hy) as (R1 & _ & R3 & R4 & _).
    cbn [b2a_base64].
    rewrite sextet2_arith, sextet3_pad_arith by assumption.
    rewrite a2b_base64_quad0, a2b_base64_quad1, a2b_base64_quad2 by assumption.
    rewrite octet1, octet2, !Z_to_byte_to_Z
      by (try assumption; try lia; Z.div_mod_to_equations; lia).
    cbn. rewrite <- app_assoc. reflexivity.
  - pose proof (byte_to_Z_range x) as Hx. pose proof (byte_to_Z_range y) as Hy.
    pose proof (byte_to_Z_range z) as Hz.
    destruct (sextet_ranges _ _ _ Hx Hy Hz) as (R1 & _ & R3 & _ & R5 & R6).
    cbn [b2a_base64].
    rewrite sextet2_arith, sextet3_arith by assumption.
    rewrite a2b_base64_quad0, a2b_base64_quad1, a2b_base64_quad2,
      a2b_base64_quad3 by assumption.
    rewrite octet1, octet2, octet3, !Z_to_byte_to_Z
      by (try assumption; try lia; Z.div_mod_to_equations; lia).
    rewrite IH, <- !app_assoc. reflexivity.
Qed.

Lemma b2a_base64_is_ascii (bs : list byte) :
  forallb is_ascii (b2a_base64 bs) = true.
Proof.
  induction bs as [| x | x y | x y z l IH] using list_ind3;
    cbn [b2a_base64 forallb]; rewrite ?b2a_is_ascii, ?IH; reflexivity.
Qed.

Lemma b64decode_b64encode (bs : list byte) : b64decode (b64encode bs) = inr bs.
Proof.
  unfold b64decode, b64encode.
  rewrite list_ascii_of_string_of_list_ascii, b2a_base64_is_ascii,
    a2b_base64_b2a_base64.
  reflexivity.
Qed.

End Base64Facts.

Lemma base64_b64decode_b64encode (pcm : list byte) :
  base64_b64decode (JStr (Base64.b64encode pcm)) = Ok pcm.
Proof.
  unfold base64_b64decode. rewrite Base64Facts.b64decode_b64encode. reflexivity.
Qed.

(** C9.  The content field of the [audioInput] event built for a frame is
    the base64 text of the frame, and decoding that field the way the
    inbound loop decodes audio content ([base64.b64decode]) gives back the
    frame, byte for byte, whatever its length.  An [audioOutput] event
    carrying the same content puts exactly these bytes on the playback
    queue. *)
Theorem audio_input_roundtrip (w : World) (pcm : list byte) :
  kind_of (audio_event w pcm) = AudioInput (audio_content_name w)
  /\ getitem3 (audio_event w pcm) "event" "audioInput" "content"
     = Ok (JStr (Base64.b64encode pcm))
  /\ base64_b64decode (JStr (Base64.b64encode pcm)) = Ok pcm
  /\ handle_bytes
       (Json (JObj [("event", JObj [("audioOutput", JObj
          [("content", JStr (Base64.b64encode pcm))])])])) w
     = (Ok tt, set_audio_output_queue (audio_output_queue w ++ [pcm]) w).
Proof.
  split; [ reflexivity | ]. split; [ reflexivity | ].
  split; [ apply base64_b64decode_b64encode | ].
  unfold handle_bytes, bind, lift, modify.
  cbn -[base64_b64decode].
  rewrite base64_b64decode_b64encode. reflexivity.
Qed.

(** ** Traces *)

Lemma sends_app (t1 t2 : list call) : sends (t1 ++ t2) = sends t1 ++ sends t2.
Proof.
  induction t1 as [| [] t1 IH]; cbn; rewrite ?IH; reflexivity.
Qed.

Lemma count_sends_app (t1 t2 : list call) :
  count_sends (t1 ++ t2) = (count_sends t1 + count_sends t2)%nat.
Proof.
  induction t1 as [| [] t1 IH]; cbn; rewrite ?IH; reflexivity.
Qed.

Lemma new_calls_app (w w' : World) (calls : list call) :
  trace w' = trace w ++ calls -> new_calls w w' = calls.
Proof.
  intros E. unfold new_calls. rewrite E, skipn_app, skipn_all, Nat.sub_diag.
  reflexivity.
Qed.

(** ** [_send_raw_event] *)

(** With a stream and the flag up, the event goes to [send]; whether
    [send] accepts it or raises, the call returns normally and only the
    trace has changed. *)
Lemma send_raw_event_live (env : Env) (event : json) (w : World) :
  stream_response w = true -> is_active w = true ->
  _send_raw_event env event w =
  (Ok tt, set_trace (trace w ++ [Send event (accepted_next env w)]) w).
Proof.
  intros Hs Ha.
  unfold _send_raw_event, input_stream_send, accepted_next, bind, get,
    try_except, emit, modify, ret, raise.
  rewrite Hs, Ha. cbn.
  destruct (send_ok env (count_sends (trace w))); reflexivity.
Qed.

Lemma send_raw_event_idle (env : Env) (event : json) (w : World) :
  negb (stream_response w) || negb (is_active w) = true ->
  _send_raw_event env event w = (Ok tt, w).
Proof.
  intros H. unfold _send_raw_event, bind, get. rewrite H. reflexivity.
Qed.

Lemma inactive_send_raw_event (env : Env) (event : json) (w : World) :
  is_active w = false -> _send_raw_event env event w = (Ok tt, w).
Proof.
  intros Ha. apply send_raw_event_idle. rewrite Ha. apply orb_true_r.
Qed.

Lemma accepted_after_0 (env : Env) (w : World) :
  accepted_after env w 0 = accepted_next env w.
Proof.
  unfold accepted_after, accepted_next. rewrite Nat.add_0_r. reflexivity.
Qed.

(** The same, for a world that differs from [w] by [calls] more entries in
    its trace. *)
Lemma send_raw_event_after (env : Env) (event : json) (w : World)
    (calls : list call) :
  stream_response w = true -> is_active w = true ->
  _send_raw_event env event (set_trace (trace w ++ calls) w) =
  (Ok tt,
   set_trace
     (trace w ++ calls ++ [Send event (accepted_after env w (count_sends calls))])
     w).
Proof.
  intros Hs Ha. rewrite send_raw_event_live by assumption.
  unfold accepted_next, accepted_after. cbn [trace set_trace].
  rewrite count_sends_app, <- app_assoc. reflexivity.
Qed.

(** ** The handshake *)

Lemma send_initialization_events_live (env : Env) (w : World) :
  stream_response w = true -> is_active w = true ->
  _send_initialization_events env w =
  (Ok tt, set_trace (trace w ++ handshake_calls env w) w).
Proof.
  intros Hs Ha. unfold _send_initialization_events, handshake_calls.
  unfold bind at 1. rewrite send_raw_event_live by assumption.
  rewrite <- accepted_after_0.
  unfold bind at 1, get at 1. unfold bind at 1.
  rewrite send_raw_event_after by assumption.
  unfold bind at 1, get at 1. unfold bind at 1.
  rewrite send_raw_event_after by assumption.
  unfold bind at 1, get at 1. unfold bind at 1.
  rewrite send_raw_event_after by assumption.
  unfold bind at 1, get at 1.
  rewrite send_raw_event_after by assumption.
  reflexivity.
Qed.

Lemma sends_handshake_calls (env : Env) (w : World) :
  sends (handshake_calls env w) = handshake w.
Proof. reflexivity. Qed.

Lemma initialize_stream_opened (env : Env) (w : World) :
  can_open env w = true ->
  initialize_stream env w =
  (Ok tt,
   set_audio_input_task AtHead
     (set_responses_task AtHead
        (set_trace (trace w ++ OpenStream :: handshake_calls env w) (opened w)))).
Proof.
  unfold can_open. intros H.
  apply andb_true_iff in H as [Hc Ho].
  pose proof (send_initialization_events_live env (opened w) eq_refl eq_refl)
    as Hrun.
  assert (Hcalls : handshake_calls env (opened w) = handshake_calls env w).
  { unfold handshake_calls, accepted_after, opened. cbn [trace set_trace].
    rewrite count_sends_app. cbn [count_sends]. rewrite !Nat.add_0_r.
    reflexivity. }
  rewrite Hcalls in Hrun.
  unfold initialize_stream, invoke_model_with_bidirectional_stream,
    _initialize_client.
  destruct (bedrock_client w) eqn:Hb; cbn in Hc.
  - unfold bind at 1, get at 1. rewrite Hb. cbn [negb].
    unfold bind at 1, ret at 1. unfold try_except.
    unfold bind at 1. unfold bind at 1, get at 1. rewrite Hb, Ho. cbn [negb].
    unfold bind at 1, emit, modify. unfold bind at 1.
    unfold bind at 1.
    replace (_send_initialization_events env _)
      with (_send_initialization_events env (opened w))
      by (unfold opened; destruct w; cbn in *; subst; reflexivity).
    rewrite Hrun. cbn. rewrite <- app_assoc. cbn.
    destruct w; cbn in *; subst; reflexivity.
  - unfold bind at 1, get at 1. rewrite Hb, Hc. cbn [negb].
    unfold bind at 1, modify at 1. unfold try_except.
    unfold bind at 1. unfold bind at 1, get at 1. cbn. rewrite Ho.
    unfold bind at 1, emit, modify. unfold bind at 1.
    unfold bind at 1.
    replace (_send_initialization_events env _)
      with (_send_initialization_events env (opened w))
      by (unfold opened; destruct w; cbn in *; subst; reflexivity).
    rewrite Hrun. cbn. rewrite <- app_assoc. cbn.
    destruct w; cbn in *; subst; reflexivity.
Qed.

Lemma initialize_stream_refused (env : Env) (w : World) :
  can_open env w = false ->
  exists e,
    initialize_stream env w =
    (Raise e,
     set_is_active false
       (if client_ok env then set_bedrock_client true w else w)).
Proof.
  unfold can_open. intros H.
  unfold initialize_stream, invoke_model_with_bidirectional_stream,
    _initialize_client, try_except, bind, get, modify, emit, ret, raise.
  destruct (bedrock_client w) eqn:Hb, (client_ok env) eqn:Hc,
    (open_ok env) eqn:Ho; cbn in *; try discriminate;
    rewrite ?Hb, ?Ho; cbn; rewrite ?Ho; eexists; try reflexivity.
  all: destruct w; cbn in *; subst; reflexivity.
Qed.

(** C1.  Whenever [initialize_stream] returns normally, the calls it has
    made on the stream since it was entered are the opening of the stream
    followed by exactly five sends: the documents of [handshake], which are
    SessionStart, PromptStart, ContentStart(TEXT, SYSTEM), TextInput and
    ContentEnd for the system content, in that order.  No audio event is
    among them, and the task that sends audio has only been created: it
    has not run. *)
Theorem initialize_stream_sends_handshake (env : Env) (w w' : World) :
  initialize_stream env w = (Ok tt, w') ->
  trace w' = trace w ++ new_calls w w'
  /\ sends (new_calls w w') = handshake w
  /\ map kind_of (handshake w) = handshake_kinds w
  /\ List.length (sends (new_calls w w')) = 5%nat
  /\ audio_input_task w' = AtHead.
Proof.
  intros Hrun.
  destruct (can_open env w) eqn:Hopen.
  - rewrite (initialize_stream_opened env w Hopen) in Hrun.
    injection Hrun as <-.
    rewrite (new_calls_app w _ (OpenStream :: handshake_calls env w))
      by reflexivity.
    repeat split; reflexivity.
  - destruct (initialize_stream_refused env w Hopen) as (e & E).
    rewrite E in Hrun. discriminate Hrun.
Qed.

Lemma initialize_stream_sends_handshake_witness :
  let env := all_accepted in
  let w := fresh env in
  let w' := initialized env in
  initialize_stream env w = (Ok tt, w')
  /\ (trace w' = trace w ++ new_calls w w'
      /\ sends (new_calls w w') = handshake w
      /\ map kind_of (handshake w) = handshake_kinds w
      /\ List.length (sends (new_calls w w')) = 5%nat
      /\ audio_input_task w' = AtHead).
Proof.
  cbv zeta. split.
  - vm_compute. reflexivity.
  - apply (initialize_stream_sends_handshake all_accepted (fresh all_accepted)
             (initialized all_accepted)).
    vm_compute. reflexivity.
Defined.

(** C2, as stated, fails: the stream refuses the third handshake event, and
    [initialize_stream] still sends the fourth and fifth, returns normally
    and leaves the flag up. *)
Lemma handshake_send_failure_counterexample :
  let env := fails_at 2 in
  let w := fresh env in
  let r := initialize_stream env w in
  new_calls w (snd r) =
    [OpenStream; Send session_start true; Send (prompt_start w) true;
     Send (content_start_system w) false; Send (system_message w) true;
     Send (content_end_system w) true]
  /\ fst r = Ok tt
  /\ is_active (snd r) = true.
Proof.
  vm_compute. repeat split.
Qed.

(** C2, amended.  A send failure during the handshake does not fail
    [initialize_stream]: when the stream can be opened, the call returns
    normally with the flag up after handing all five events to [send],
    whichever of them the stream accepted or refused.  The call fails, and
    leaves the flag down without touching the stream, exactly when no
    stream can be opened. *)
Theorem initialize_stream_fails_only_on_open (env : Env) (w : World) :
  let r := initialize_stream env w in
  if can_open env w then
    fst r = Ok tt /\ is_active (snd r) = true
    /\ new_calls w (snd r) = OpenStream :: handshake_calls env w
  else
    (exists e, fst r = Raise e) /\ is_active (snd r) = false
    /\ trace (snd r) = trace w.
Proof.
  cbv zeta. destruct (can_open env w) eqn:Hopen.
  - rewrite (initialize_stream_opened env w Hopen). cbn [fst snd].
    rewrite (new_calls_app w _ (OpenStream :: handshake_calls env w))
      by reflexivity.
    repeat split.
  - destruct (initialize_stream_refused env w Hopen) as (e & E).
    rewrite E. cbn [fst snd]. repeat split.
    + exists e. reflexivity.
    + destruct (client_ok env); reflexivity.
Qed.

(** ** The outbound loop *)

Lemma pump_sends_chunk (env : Env) (w : World) (data : chunk) (rest : list chunk) :
  stream_response w = true -> is_active w = true ->
  audio_input_task w = Suspended ->
  audio_input_queue w = data :: rest ->
  is_empty (chunk_audio_bytes data) = false ->
  pump env w =
  set_trace
    (trace w ++ [Send (audio_event w (chunk_audio_bytes data)) (accepted_next env w)])
    (set_audio_input_task AtHead (set_audio_input_queue rest w)).
Proof.
  intros Hs Ha Ht Hq Hb. unfold pump, run, _process_audio_input.
  unfold bind at 1, get at 1. rewrite Ht, Hq.
  unfold bind at 1, modify at 1. unfold bind at 1, modify at 1.
  rewrite Hb. unfold bind at 1, get at 1.
  rewrite send_raw_event_live by assumption. reflexivity.
Qed.

Lemma pump_resumes (env : Env) (w : World) :
  is_active w = true -> audio_input_task w = AtHead ->
  pump env w = set_audio_input_task Suspended w.
Proof.
  intros Ha Ht. unfold pump, run, _process_audio_input, bind, get.
  rewrite Ht, Ha. reflexivity.
Qed.

(** Waiting in [get()] on an empty queue, the task does not move, whatever
    the flag says. *)
Lemma pump_waits (env : Env) (w : World) :
  audio_input_task w = Suspended -> audio_input_queue w = [] ->
  pump env w = w.
Proof.
  intros Ht Hq. unfold pump, run, _process_audio_input, bind, get.
  rewrite Ht, Hq. reflexivity.
Qed.

(** C3, as stated, fails: with two frames queued and the send of the first
    one refused, the loop goes on to send the second; the flag is still up
    and the task has not returned. *)
Lemma audio_send_failure_counterexample :
  let env := fails_at 6 in
  let w := two_frames env in
  let w' := pump env (pump env (pump env w)) in
  audio_input_task w = Suspended
  /\ new_calls w w' =
       [Send (audio_event w [x01; x02]) false; Send (audio_event w [x03; x04]) true]
  /\ is_active w' = true
  /\ audio_input_task w' = AtHead.
Proof.
  vm_compute. repeat split.
Qed.

(** C3, amended.  When the send of a frame fails while the outbound loop is
    running, the failure stays inside [_send_raw_event]: the session's flag
    is unchanged, the loop is back at its head, and its next two steps
    take the following frame from the queue and send it. *)
Theorem audio_send_failure_is_swallowed (env : Env) (w : World)
    (data next : chunk) (rest : list chunk) :
  stream_response w = true -> is_active w = true ->
  audio_input_task w = Suspended ->
  audio_input_queue w = data :: next :: rest ->
  is_empty (chunk_audio_bytes data) = false ->
  is_empty (chunk_audio_bytes next) = false ->
  accepted_next env w = false ->
  let w1 := pump env w in
  let w3 := pump env (pump env w1) in
  new_calls w w1 = [Send (audio_event w (chunk_audio_bytes data)) false]
  /\ is_active w1 = true
  /\ audio_input_task w1 = AtHead
  /\ sends (new_calls w1 w3) = [audio_event w (chunk_audio_bytes next)]
  /\ is_active w3 = true
  /\ audio_input_task w3 = AtHead.
Proof.
  intros Hs Ha Ht Hq Hd Hn Hfail. cbv zeta.
  rewrite (pump_sends_chunk env w data (next :: rest)) by assumption.
  rewrite Hfail.
  set (w1 := set_trace _ _).
  rewrite (pump_resumes env w1) by (try exact Ha; reflexivity).
  rewrite (pump_sends_chunk env _ next rest)
    by (try exact Hs; try exact Ha; try exact Hn; reflexivity).
  repeat split; try exact Ha.
  - apply new_calls_app. reflexivity.
  - rewrite (new_calls_app w1 _
               [Send (audio_event w (chunk_audio_bytes next))
                  (accepted_next env (set_audio_input_task Suspended w1))]);
      reflexivity.
Qed.

Lemma audio_send_failure_is_swallowed_witness :
  let env := fails_at 6 in
  let w := two_frames env in
  let w1 := pump env w in
  let w3 := pump env (pump env w1) in
  (stream_response w = true /\ is_active w = true
   /\ audio_input_task w = Suspended
   /\ audio_input_queue w =
        [mkChunk [x01; x02] "prompt-1" "audio-1";
         mkChunk [x03; x04] "prompt-1" "audio-1"]
   /\ accepted_next env w = false)
  /\ (new_calls w w1 = [Send (audio_event w [x01; x02]) false]
      /\ is_active w1 = true
      /\ audio_input_task w1 = AtHead
      /\ sends (new_calls w1 w3) = [audio_event w [x03; x04]]
      /\ is_active w3 = true
      /\ audio_input_task w3 = AtHead).
Proof.
  cbv zeta. split.
  - repeat split; vm_compute; reflexivity.
  - apply (audio_send_failure_is_swallowed (fails_at 6) (two_frames (fails_at 6))
             (mkChunk [x01; x02] "prompt-1" "audio-1")
             (mkChunk [x03; x04] "prompt-1" "audio-1") []);
      vm_compute; reflexivity.
Defined.

(** C8.  The session has been stopped and the capture queue is empty, and
    the outbound task is waiting in [audio_input_queue.get()]: however
    many times it is scheduled, nothing changes; in particular it never
    returns.  The wait has no timeout, unlike the wait of
    [play_output_audio]. *)
Theorem pump_never_wakes_after_stop (env : Env) (n : nat) (w : World) :
  is_active w = false ->
  audio_input_queue w = [] ->
  audio_input_task w = Suspended ->
  Nat.iter n (pump env) w = w
  /\ audio_input_task (Nat.iter n (pump env) w) <> Finished.
Proof.
  intros _ Hq Ht.
  assert (E : Nat.iter n (pump env) w = w).
  { induction n as [| n IH].
    - reflexivity.
    - rewrite Nat.iter_succ, IH. apply pump_waits; assumption. }
  rewrite E, Ht. split; [ reflexivity | discriminate ].
Qed.

Lemma pump_never_wakes_after_stop_witness :
  let env := all_accepted in
  let w := stopped_while_waiting env in
  (is_active w = false /\ audio_input_queue w = []
   /\ audio_input_task w = Suspended)
  /\ (Nat.iter 100 (pump env) w = w
      /\ audio_input_task (Nat.iter 100 (pump env) w) <> Finished).
Proof.
  cbv zeta. split.
  - repeat split; vm_compute; reflexivity.
  - apply (pump_never_wakes_after_stop all_accepted 100
             (stopped_while_waiting all_accepted));
      vm_compute; reflexivity.
Defined.

(** ** Audio turns *)

(** C5, as stated, fails: with a turn open, [send_audio_content_start]
    returns normally and sends a second ContentStart; with no turn open,
    [send_audio_content_end] returns normally and sends a ContentEnd. *)
Lemma turn_calls_counterexample :
  let env := all_accepted in
  let w := in_turn env in
  let r := send_audio_content_start env w in
  let w0 := initialized env in
  let r0 := send_audio_content_end env w0 in
  (turn_open w = true /\ is_active w = true
   /\ fst r = Ok tt /\ new_calls w (snd r) = [Send (content_start w) true])
  /\ (turn_open w0 = false /\ is_active w0 = true
      /\ fst r0 = Ok tt /\ new_calls w0 (snd r0) = [Send (content_end w0) true]).
Proof.
  vm_compute. repeat split.
Qed.

(** C5, amended.  The session keeps no record of an open turn and the two
    calls check none: on an active session, whatever was sent before,
    [send_audio_content_start] returns normally having sent
    ContentStart(AUDIO, USER), and [send_audio_content_end] returns
    normally having sent ContentEnd for the audio content; in both cases
    the session stays active. *)
Theorem turn_calls_are_unguarded (env : Env) (w : World) :
  stream_response w = true -> is_active w = true ->
  let sent event := set_trace (trace w ++ [Send event (accepted_next env w)]) w in
  send_audio_content_start env w = (Ok tt, sent (content_start w))
  /\ send_audio_content_end env w = (Ok tt, sent (content_end w))
  /\ kind_of (content_start w) = ContentStart "AUDIO" "USER" (audio_content_name w)
  /\ kind_of (content_end w) = ContentEnd (audio_content_name w)
  /\ is_active (sent (content_start w)) = true
  /\ is_active (sent (content_end w)) = true.
Proof.
  intros Hs Ha. cbv zeta.
  unfold send_audio_content_start, send_audio_content_end, bind, get.
  rewrite !send_raw_event_live by assumption.
  repeat split; exact Ha.
Qed.

Lemma turn_calls_are_unguarded_witness :
  let env := all_accepted in
  let w := in_turn env in
  let sent event := set_trace (trace w ++ [Send event (accepted_next env w)]) w in
  (stream_response w = true /\ is_active w = true /\ turn_open w = true)
  /\ (send_audio_content_start env w = (Ok tt, sent (content_start w))
      /\ send_audio_content_end env w = (Ok tt, sent (content_end w))
      /\ kind_of (content_start w)
         = ContentStart "AUDIO" "USER" (audio_content_name w)
      /\ kind_of (content_end w) = ContentEnd (audio_content_name w)
      /\ is_active (sent (content_start w)) = true
      /\ is_active (sent (content_end w)) = true).
Proof.
  cbv zeta. split.
  - repeat split; vm_compute; reflexivity.
  - apply (turn_calls_are_unguarded all_accepted (in_turn all_accepted));
      vm_compute; reflexivity.
Defined.

(** ** [stop_conversation] *)

Lemma close_device_run (d : device) (st : option pa_stream)
    (set_st : option pa_stream -> World -> World) (w : World) :
  close_device d st set_st w =
  match st with
  | Some s =>
      if pa_closed s then (Raise OSError, w)
      else
        let w1 :=
          if pa_running s then
            set_st (Some (mkPaStream false false))
              (set_trace (trace w ++ [StopStream d]) w)
          else w in
        (Ok tt,
         set_st (Some (mkPaStream false true))
           (set_trace (trace w1 ++ [CloseDevice d]) w1))
  | None => (Ok tt, w)
  end.
Proof.
  destruct st as [[[] []] |]; reflexivity.
Qed.

Ltac stop_conversation_cases w :=
  let sr := fresh "sr" in
  unfold stop_conversation, send_audio_content_end;
  unfold bind at 1, modify at 1; unfold bind at 1; unfold bind at 1, get at 1;
  rewrite send_raw_event_idle by (cbn; apply orb_true_r);
  unfold bind at 1, get at 1; unfold bind at 1; rewrite close_device_run;
  destruct w as [? ? ? sr ? ? ? ? ? ? [[[] []] |] [[[] []] |] ? ? ? ? ?];
  cbn [input_stream output_stream set_is_active usable pa_closed negb];
  try discriminate;
  intros; cbv beta iota zeta;
  try (unfold bind at 1, get at 1; unfold bind at 1; rewrite close_device_run);
  destruct sr; cbv -[app]; rewrite ?app_nil_r, <- ?app_assoc; reflexivity.

(** On a session whose device streams, if any, were not closed, a stop
    returns normally; it lowers the flag, closes the device streams and
    appends the teardown calls to the trace. *)
Lemma stop_conversation_run (env : Env) (w : World) :
  usable (input_stream w) = true -> usable (output_stream w) = true ->
  stop_conversation env w =
  (Ok tt, set_trace (trace w ++ teardown w) (stopped_streams w)).
Proof.
  revert w. intros w. unfold teardown, stopped_streams, closed.
  stop_conversation_cases w.
Qed.

(** A closed input stream: the stop raises at its [is_active()], the flag
    lowered and nothing else done. *)
Lemma stop_conversation_raises_input (env : Env) (w : World) :
  usable (input_stream w) = false ->
  stop_conversation env w = (Raise OSError, set_is_active false w).
Proof.
  stop_conversation_cases w.
Qed.

(** A closed output stream behind a usable input stream: the input stream
    is closed, then the stop raises. *)
Lemma stop_conversation_raises_output (env : Env) (w : World) :
  usable (input_stream w) = true -> usable (output_stream w) = false ->
  stop_conversation env w =
  (Raise OSError,
   set_trace
     (trace w
      ++ match input_stream w with
         | Some s =>
             (if pa_running s then [StopStream InputDevice] else [])
             ++ [CloseDevice InputDevice]
         | None => []
         end)
     (set_input_stream (closed (input_stream w)) (set_is_active false w))).
Proof.
  unfold closed.
  stop_conversation_cases w.
Qed.

Lemma sends_teardown (w : World) : sends (teardown w) = [].
Proof.
  unfold teardown.
  destruct (input_stream w) as [[[] ?] |], (output_stream w) as [[[] ?] |],
    (stream_response w); reflexivity.
Qed.

(** Whatever the device streams are, and whether it returns or raises, a
    stop lowers the flag, touches no other field than the device streams
    and appends calls none of which is a send. *)
Lemma stop_conversation_effect (env : Env) (w : World) :
  exists res calls ins outs,
    stop_conversation env w =
    (res,
     set_trace (trace w ++ calls)
       (set_output_stream outs (set_input_stream ins (set_is_active false w))))
    /\ sends calls = [].
Proof.
  destruct (usable (input_stream w)) eqn:Hin;
    [ destruct (usable (output_stream w)) eqn:Hout | ].
  - exists (Ok tt), (teardown w), (closed (input_stream w)),
      (closed (output_stream w)).
    split; [ apply stop_conversation_run; assumption | apply sends_teardown ].
  - exists (Raise OSError),
      (match input_stream w with
       | Some s =>
           (if pa_running s then [StopStream InputDevice] else [])
           ++ [CloseDevice InputDevice]
       | None => []
       end),
      (closed (input_stream w)), (output_stream w).
    split.
    + rewrite stop_conversation_raises_output by assumption.
      destruct w; reflexivity.
    + destruct (input_stream w) as [[[] ?] |]; reflexivity.
  - exists (Raise OSError), [], (input_stream w), (output_stream w).
    split; [ | reflexivity ].
    rewrite stop_conversation_raises_input by assumption.
    rewrite app_nil_r. destruct w; reflexivity.
Qed.

Lemma stop_conversation_silent (env : Env) (w : World) :
  is_active (run (stop_conversation env) w) = false
  /\ sends (trace (run (stop_conversation env) w)) = sends (trace w).
Proof.
  destruct (stop_conversation_effect env w)
    as (res & calls & ins & outs & E & Hs).
  unfold run. rewrite E. cbn [snd].
  split; [ reflexivity | ].
  cbn [trace set_trace]. rewrite sends_app, Hs. apply app_nil_r.
Qed.

(** C6.  [stop_conversation] never hands an event to [send], on any
    session: it lowers the flag first, so the guard of [_send_raw_event]
    drops the ContentEnd it then tries to send.  The flag is down
    afterwards. *)
Theorem stop_conversation_sends_nothing (env : Env) (w : World) :
  let w' := run (stop_conversation env) w in
  sends (trace w') = sends (trace w)
  /\ is_active w' = false.
Proof.
  cbv zeta. destruct (stop_conversation_silent env w) as [Ha Hs].
  split; assumption.
Qed.

(** On an active session with an audio turn open, the calls of a stop are
    the teardown alone, and the turn is left open. *)
Lemma stop_conversation_open_turn :
  let env := all_accepted in
  let w := in_turn env in
  let w' := run (stop_conversation env) w in
  turn_open w = true /\ is_active w = true /\ stream_response w = true
  /\ new_calls w w' = [Terminate; CloseInputStream]
  /\ turn_open w' = true.
Proof.
  vm_compute. repeat split.
Qed.

(** A stop that follows a stop.  Every device stream the session has is
    closed by then: the second call raises before it makes any call.  With
    no device stream it returns, having terminated PyAudio and, when a
    stream was opened, closed its input stream once more. *)
Lemma stop_conversation_again (env : Env) (w : World) :
  let w1 := run (stop_conversation env) w in
  stop_conversation env w1 =
  match input_stream w, output_stream w with
  | None, None =>
      (Ok tt,
       set_trace
         (trace w1
          ++ Terminate :: (if stream_response w then [CloseInputStream] else []))
         w1)
  | _, _ => (Raise OSError, w1)
  end.
Proof.
  cbv zeta. unfold run.
  destruct w as [v r bc sr ia iq oq pn cn an [[[] []] |] [[[] []] |] t ib rt at_ pt];
    destruct sr; cbv -[app]; rewrite <- ?app_assoc; reflexivity.
Qed.

(** C7, as stated, fails.  On a conversation from the microphone the first
    [stop_conversation] returns and leaves both device streams closed; the
    second one is not a call that raises no error: it finds [input_stream]
    still set, asks the closed stream [is_active()], and that raises. *)
Lemma second_stop_raises_counterexample :
  let env := all_accepted in
  let w := at_the_microphone env in
  let first := stop_conversation env w in
  let second := stop_conversation env (snd first) in
  is_active w = true
  /\ usable (input_stream w) = true /\ usable (output_stream w) = true
  /\ fst first = Ok tt
  /\ is_active (snd first) = false
  /\ fst second = Raise OSError.
Proof.
  vm_compute. repeat split.
Qed.

(** C7, amended.  After a first [stop_conversation] the flag is down and a
    second call leaves it down; the second call hands nothing to [send],
    so no ContentEnd is duplicated, and it changes no field of the
    session.  Whether it returns depends on the device streams, since no
    check tells an already stopped session apart.  On a session without
    device streams the second call returns normally, having terminated
    PyAudio and, when a stream was opened, closed its input stream once
    more.  On a session with a device stream the second call raises
    [OSError] at the first [is_active()] it asks of a closed stream, before
    it makes any call. *)
Theorem second_stop_raises_on_closed_devices (env : Env) (w : World) :
  let w1 := run (stop_conversation env) w in
  let r := stop_conversation env w1 in
  is_active w1 = false
  /\ is_active (snd r) = false
  /\ sends (new_calls w1 (snd r)) = []
  /\ snd r = set_trace (trace w1 ++ new_calls w1 (snd r)) w1
  /\ match input_stream w, output_stream w with
     | None, None =>
         fst r = Ok tt
         /\ new_calls w1 (snd r)
            = Terminate :: (if stream_response w then [CloseInputStream] else [])
     | _, _ => fst r = Raise OSError /\ new_calls w1 (snd r) = []
     end.
Proof.
  cbv zeta.
  pose proof (stop_conversation_again env w) as E. cbv zeta in E.
  destruct (stop_conversation_silent env w) as [Ha _].
  set (w1 := run (stop_conversation env) w) in *.
  assert (Hsame : new_calls w1 w1 = [])
    by (apply new_calls_app; symmetry; apply app_nil_r).
  assert (Heta : w1 = set_trace (trace w1 ++ []) w1)
    by (rewrite app_nil_r; destruct w1; reflexivity).
  set (calls := Terminate :: (if stream_response w then [CloseInputStream] else []))
    in *.
  assert (Hcalls : new_calls w1 (set_trace (trace w1 ++ calls) w1) = calls)
    by (apply new_calls_app; reflexivity).
  assert (Hsends : sends calls = [])
    by (unfold calls; destruct (stream_response w); reflexivity).
  destruct (input_stream w), (output_stream w); rewrite E; cbn [fst snd];
    rewrite ?Hsame, ?Hcalls;
    repeat split; try assumption; try reflexivity.
Qed.

(** ** The inbound loop *)

Lemma dispatch_skips_malformed (w : World) (rest : list recv) :
  responses_task w = Suspended -> inbound w = malformed :: rest ->
  dispatch w = set_responses_task AtHead (set_inbound rest w).
Proof.
  intros Ht Hi. unfold dispatch, run, _process_responses, bind, get.
  rewrite Ht, Hi. reflexivity.
Qed.

Lemma dispatch_resumes (w : World) :
  is_active w = true -> responses_task w = AtHead ->
  dispatch w = set_responses_task Suspended w.
Proof.
  intros Ha Ht. unfold dispatch, run, _process_responses, bind, get.
  rewrite Ht, Ha. reflexivity.
Qed.

Lemma dispatch_waits (w : World) :
  responses_task w = Suspended -> inbound w = [] -> dispatch w = w.
Proof.
  intros Ht Hi. unfold dispatch, run, _process_responses, bind, get.
  rewrite Ht, Hi. reflexivity.
Qed.

(** Two steps per message: the [while] test, then the receive. *)
Lemma dispatch_drains_malformed (n : nat) :
  forall w : World,
    is_active w = true ->
    responses_task w = AtHead ->
    inbound w = repeat malformed n ->
    Nat.iter (2 * n + 1) dispatch w
    = set_responses_task Suspended (set_inbound [] w).
Proof.
  induction n as [| n IH]; intros w Ha Ht Hi.
  - change (dispatch w = set_responses_task Suspended (set_inbound [] w)).
    rewrite dispatch_resumes by assumption.
    cbn [repeat] in Hi. destruct w; cbn in *; subst; reflexivity.
  - replace (2 * S n + 1)%nat with (S (S (2 * n + 1))) by lia.
    rewrite !Nat.iter_succ_r.
    rewrite (dispatch_resumes w) by assumption.
    rewrite (dispatch_skips_malformed (set_responses_task Suspended w)
               (repeat malformed n)) by (try exact Hi; reflexivity).
    rewrite IH by (try exact Ha; reflexivity).
    reflexivity.
Qed.

(** A decoding failure other than a JSON one is not tolerated at all: a
    message that is not UTF-8 ends the loop and lowers the flag. *)
Lemma dispatch_not_utf8 (w : World) (rest : list recv) :
  responses_task w = Suspended ->
  inbound w = RecvResult (Some NotUtf8) :: rest ->
  dispatch w
  = set_responses_task Finished (set_is_active false (set_inbound rest w)).
Proof.
  intros Ht Hi. unfold dispatch, run, _process_responses, bind, get.
  rewrite Ht, Hi. reflexivity.
Qed.

(** C4, as stated, fails: after three consecutive messages that are not
    JSON the session is still active and the loop is waiting for the next
    message. *)
Lemma malformed_frames_counterexample :
  let w := set_inbound [malformed; malformed; malformed] (initialized all_accepted) in
  let w' := Nat.iter 7 dispatch w in
  responses_task w = AtHead
  /\ inbound w' = []
  /\ is_active w' = true
  /\ responses_task w' = Suspended.
Proof.
  vm_compute. repeat split.
Qed.

(** C4, amended.  The inbound loop counts no failures and has no tolerance
    bound: it skips every message that is not JSON.  After any number [n]
    of consecutive such messages nothing but the consumption of the
    messages has changed: the session is still active and the loop waits
    for the next message, for as long as it is scheduled. *)
Theorem malformed_frames_are_skipped_without_bound (n k : nat) (w : World) :
  is_active w = true ->
  responses_task w = AtHead ->
  inbound w = repeat malformed n ->
  let w' := Nat.iter (2 * n + 1) dispatch w in
  w' = set_responses_task Suspended (set_inbound [] w)
  /\ is_active w' = true
  /\ Nat.iter k dispatch w' = w'.
Proof.
  intros Ha Ht Hi. cbv zeta.
  rewrite dispatch_drains_malformed by assumption.
  repeat split; [ exact Ha | ].
  induction k as [| k IH]; [ reflexivity | ].
  rewrite Nat.iter_succ, IH. apply dispatch_waits; reflexivity.
Qed.

Lemma malformed_frames_are_skipped_without_bound_witness :
  let w := set_inbound (repeat malformed 3) (initialized all_accepted) in
  let w' := Nat.iter (2 * 3 + 1) dispatch w in
  (is_active w = true /\ responses_task w = AtHead
   /\ inbound w = repeat malformed 3)
  /\ (w' = set_responses_task Suspended (set_inbound [] w)
      /\ is_active w' = true
      /\ Nat.iter 5 dispatch w' = w').
Proof.
  cbv zeta. split.
  - repeat split; vm_compute; reflexivity.
  - apply (malformed_frames_are_skipped_without_bound 3 5
             (set_inbound (repeat malformed 3) (initialized all_accepted)));
      vm_compute; reflexivity.
Defined.

(** Handling a message touches the playback queue at most. *)
Lemma handle_bytes_effect (p : payload) (w : World) :
  exists q, snd (handle_bytes p w) = set_audio_output_queue q w.
Proof.
  assert (Hsame : exists q, w = set_audio_output_queue q w)
    by (exists (audio_output_queue w); destruct w; reflexivity).
  unfold handle_bytes, bind, lift, modify, ret, raise.
  destruct p as [| | json_data]; try exact Hsame.
  destruct (py_in "event" json_data) as [[] |]; try exact Hsame.
  destruct (py_getitem json_data "event") as [event |]; try exact Hsame.
  destruct (py_in "audioOutput" event) as [[] |]; try exact Hsame.
  destruct (getitem3 json_data "event" "audioOutput" "content") as [c |];
    try exact Hsame.
  destruct (base64_b64decode c) as [bs |]; try exact Hsame.
  eexists. reflexivity.
Qed.

Lemma receive_one_effect (r : recv) (w : World) :
  exists q, snd (receive_one r w) = set_audio_output_queue q w.
Proof.
  assert (Hsame : exists q, w = set_audio_output_queue q w)
    by (exists (audio_output_queue w); destruct w; reflexivity).
  destruct r as [e | [p |]]; try exact Hsame.
  unfold receive_one, try_except.
  destruct (handle_bytes_effect p w) as (q & Hq).
  destruct (handle_bytes p w) as [[[] | e] w']; cbn [snd] in *;
    try destruct e; exists q; exact Hq.
Qed.

(** A step of the inbound task changes the playback queue, the pending
    messages and its own position; it lowers the flag exactly when it
    leaves the loop, and never raises it. *)
Lemma dispatch_effect (w : World) :
  exists q rest t,
    dispatch w =
    set_responses_task t
      (set_inbound rest
         (set_audio_output_queue q
            (set_is_active
               (is_active w
                && negb (is_running (responses_task w) && negb (is_running t)))
               w))).
Proof.
  unfold dispatch, run, _process_responses.
  unfold bind at 1, get at 1.
  destruct (responses_task w) eqn:Ht.
  - exists (audio_output_queue w), (inbound w), NotStarted.
    destruct w; cbn in *; subst; rewrite andb_true_r; reflexivity.
  - destruct (is_active w) eqn:Ha.
    + exists (audio_output_queue w), (inbound w), Suspended.
      destruct w; cbn in *; subst; reflexivity.
    + exists (audio_output_queue w), (inbound w), Finished.
      destruct w; cbn in *; subst; reflexivity.
  - destruct (inbound w) as [| r rest] eqn:Hi.
    + exists (audio_output_queue w), [], Suspended.
      destruct w; cbn in *; subst; rewrite andb_true_r; reflexivity.
    + unfold bind at 1, modify at 1. unfold try_except, bind at 1.
      destruct (receive_one_effect r (set_inbound rest w)) as (q & Hq).
      destruct (receive_one r (set_inbound rest w)) as [[[] | e] w'];
        cbn [snd] in Hq; subst w'.
      * exists q, rest, AtHead.
        destruct w; cbn in *; subst; rewrite andb_true_r; reflexivity.
      * exists q, rest, Finished.
        destruct w; cbn in *; subst; rewrite andb_false_r; reflexivity.
  - exists (audio_output_queue w), (inbound w), Finished.
    destruct w; cbn in *; subst; rewrite andb_true_r; reflexivity.
Qed.

Lemma dispatch_exit_clears_flag (w : World) :
  is_running (responses_task w) = true ->
  responses_task (dispatch w) = Finished ->
  is_active (dispatch w) = false.
Proof.
  intros Hr Hf. destruct (dispatch_effect w) as (q & rest & t & E).
  rewrite E in Hf |- *. cbn in Hf |- *. subst t. rewrite Hr.
  apply andb_false_r.
Qed.

(** ** A session whose flag is down *)

Lemma inactive_perform (env : Env) (a : action) (w : World) :
  is_active w = false ->
  is_active (run (perform env a) w) = false
  /\ sends (trace (run (perform env a) w)) = sends (trace w).
Proof.
  intros Ha.
  assert (Hsame : is_active w = false /\ sends (trace w) = sends (trace w))
    by (split; [ exact Ha | reflexivity ]).
  unfold run. destruct a; cbn [perform].
  - unfold send_audio_content_start, bind, get.
    rewrite inactive_send_raw_event by exact Ha. exact Hsame.
  - unfold send_audio_content_end, bind, get.
    rewrite inactive_send_raw_event by exact Ha. exact Hsame.
  - exact Hsame.
  - unfold _input_callback, bind, get. rewrite Ha. exact Hsame.
  - apply (stop_conversation_silent env w).
  - unfold _process_audio_input, bind, get, modify, ret. cbv beta iota.
    destruct (audio_input_task w); try exact Hsame.
    + rewrite Ha. exact Hsame.
    + destruct (audio_input_queue w) as [| data rest]; [ exact Hsame | ].
      destruct (is_empty (chunk_audio_bytes data)); [ exact Hsame | ].
      rewrite inactive_send_raw_event by exact Ha. exact Hsame.
  - destruct (dispatch_effect w) as (q & rest & t & E).
    unfold dispatch, run in E. rewrite E, Ha. split; reflexivity.
  - unfold play_output_audio, bind, get, modify, ret, emit. cbv beta iota.
    destruct (playback_task w); try exact Hsame.
    + rewrite Ha. exact Hsame.
    + destruct (audio_output_queue w) as [| audio_data rest]; [ exact Hsame | ].
      rewrite Ha, andb_false_r. exact Hsame.
Qed.

Lemma inactive_perform_all (env : Env) (acts : list action) :
  forall w : World,
    is_active w = false ->
    is_active (perform_all env acts w) = false
    /\ sends (trace (perform_all env acts w)) = sends (trace w).
Proof.
  induction acts as [| a acts IH]; intros w Ha; cbn [perform_all].
  - split; [ exact Ha | reflexivity ].
  - destruct (inactive_perform env a w Ha) as [Ha' Hs'].
    destruct (IH _ Ha') as [Ha'' Hs'']. split; [ exact Ha'' | ].
    rewrite Hs''. exact Hs'.
Qed.

Lemma play_effect (w : World) :
  exists q t calls,
    play w =
    set_trace (trace w ++ calls)
      (set_playback_task t (set_audio_output_queue q w))
    /\ t = match playback_task w with
           | AtHead => if is_active w then Suspended else Finished
           | Suspended => AtHead
           | p => p
           end.
Proof.
  unfold play, run, play_output_audio, bind, get, modify, ret, emit.
  cbv beta iota.
  destruct (playback_task w) eqn:Ht.
  - exists (audio_output_queue w), NotStarted, [].
    split; [ | reflexivity ]. destruct w; cbn in *; subst.
    rewrite app_nil_r. reflexivity.
  - exists (audio_output_queue w), (if is_active w then Suspended else Finished), [].
    split; [ | reflexivity ]. destruct w as [? ? ? ? []]; cbn in *; subst;
      rewrite app_nil_r; reflexivity.
  - destruct (audio_output_queue w) as [| audio_data rest] eqn:Hq.
    + exists [], AtHead, []. split; [ | reflexivity ].
      destruct w; cbn in *; subst. rewrite app_nil_r. reflexivity.
    + destruct (negb (is_empty audio_data) && is_active w
                && match output_stream w with Some _ => true | None => false end).
      * exists rest, AtHead, [WriteOutput audio_data]. split; reflexivity.
      * exists rest, AtHead, []. split; [ | reflexivity ].
        destruct w; cbn in *; subst. rewrite app_nil_r. reflexivity.
  - exists (audio_output_queue w), Finished, [].
    split; [ | reflexivity ]. destruct w; cbn in *; subst.
    rewrite app_nil_r. reflexivity.
Qed.

(** With the flag down the playback task returns within two steps,
    wherever it stands: its wait on the queue times out. *)
Lemma inactive_playback_returns (w : World) :
  is_active w = false -> is_running (playback_task (play (play w))) = false.
Proof.
  intros Ha.
  destruct (play_effect w) as (q & t & calls & E & Et).
  destruct (play_effect (play w)) as (q' & t' & calls' & E' & Et').
  rewrite E'. cbn [playback_task set_trace set_playback_task]. subst t'.
  rewrite E. cbn [playback_task is_active set_trace set_playback_task
                  set_audio_output_queue]. subst t.
  rewrite Ha. destruct (playback_task w); reflexivity.
Qed.

(** C10, as stated, fails for one lifecycle call.  After the inbound task
    has returned at the end of the stream and lowered the flag,
    [initialize_stream] on the same session opens a stream, raises the
    flag again and sends the five events of the handshake. *)
Lemma reinitialize_after_exit_counterexample :
  let env := all_accepted in
  let w := end_of_stream env in
  let w1 := dispatch w in
  let r := initialize_stream env w1 in
  is_running (responses_task w) = true
  /\ responses_task w1 = Finished
  /\ is_active w1 = false
  /\ fst r = Ok tt
  /\ is_active (snd r) = true
  /\ sends (new_calls w1 (snd r)) = handshake w1
  /\ sends (trace (snd r)) <> sends (trace w1).
Proof.
  vm_compute. repeat split. discriminate.
Qed.

(** C10, amended.  Whenever a step of the inbound task makes it return,
    for whatever reason (the [while] test, the end of the stream, any
    exception), the flag is down afterwards.  From then on, until
    [initialize_stream] is called again, whatever the caller and the tasks
    do (audio turn calls, captured audio, stop, steps of the three loops,
    in any number and order), the flag stays down and nothing more is
    handed to [send]; and the playback task, if it runs, returns within its
    next two steps. *)
Theorem responses_exit_silences_session (env : Env) (w : World)
    (acts : list action) :
  is_running (responses_task w) = true ->
  responses_task (dispatch w) = Finished ->
  let w1 := dispatch w in
  let w2 := perform_all env acts w1 in
  is_active w1 = false
  /\ is_active w2 = false
  /\ sends (trace w2) = sends (trace w1)
  /\ is_running (playback_task (play (play w2))) = false.
Proof.
  intros Hr Hf. cbv zeta.
  pose proof (dispatch_exit_clears_flag w Hr Hf) as Ha.
  destruct (inactive_perform_all env acts (dispatch w) Ha) as [Ha2 Hs2].
  repeat split; try assumption.
  apply inactive_playback_returns. exact Ha2.
Qed.

Lemma responses_exit_silences_session_witness :
  let env := all_accepted in
  let w := end_of_stream env in
  let acts :=
    [CallAddAudioChunk [x01; x02]; StepProcessAudioInput; StepProcessAudioInput;
     CallSendAudioContentEnd; CallSendAudioContentStart; CallStopConversation] in
  let w1 := dispatch w in
  let w2 := perform_all env acts w1 in
  (is_running (responses_task w) = true /\ responses_task (dispatch w) = Finished
   /\ is_running (playback_task w1) = true)
  /\ (is_active w1 = false
      /\ is_active w2 = false
      /\ sends (trace w2) = sends (trace w1)
      /\ is_running (playback_task (play (play w2))) = false).
Proof.
  cbv zeta. split.
  - repeat split; vm_compute; reflexivity.
  - apply (responses_exit_silences_session all_accepted
             (end_of_stream all_accepted));
      vm_compute; reflexivity.
Defined.

(** * Further properties *)

(** ** Frames on their way out *)

Lemma pump_skips_empty (env : Env) (w : World) (data : chunk) (rest : list chunk) :
  audio_input_task w = Suspended ->
  audio_input_queue w = data :: rest ->
  is_empty (chunk_audio_bytes data) = true ->
  pump env w = set_audio_input_task AtHead (set_audio_input_queue rest w).
Proof.
  intros Ht Hq Hb. unfold pump, run, _process_audio_input.
  unfold bind at 1, get at 1. rewrite Ht, Hq.
  unfold bind at 1, modify at 1. unfold bind at 1, modify at 1.
  rewrite Hb. reflexivity.
Qed.

Lemma pump_drains (env : Env) (chunks : list chunk) :
  forall w : World,
    stream_response w = true -> is_active w = true ->
    audio_input_task w = AtHead ->
    audio_input_queue w = chunks ->
    exists calls,
      Nat.iter (2 * List.length chunks) (pump env) w
      = set_trace (trace w ++ calls) (set_audio_input_queue [] w)
      /\ sends calls = map (audio_event w) (frames_of chunks).
Proof.
  induction chunks as [| data rest IH]; intros w Hs Ha Ht Hq.
  - exists []. split; [ | reflexivity ].
    destruct w; cbn in *; subst. rewrite app_nil_r. reflexivity.
  - replace (2 * List.length (data :: rest))%nat
      with (S (S (2 * List.length rest))) by (cbn [List.length]; lia).
    rewrite !Nat.iter_succ_r.
    rewrite (pump_resumes env w) by assumption.
    destruct (is_empty (chunk_audio_bytes data)) eqn:Hb.
    + rewrite (pump_skips_empty env _ data rest) by (try exact Hq; try exact Hb; reflexivity).
      destruct (IH (set_audio_input_task AtHead
                      (set_audio_input_queue rest (set_audio_input_task Suspended w)))
                   Hs Ha eq_refl eq_refl) as (calls & E & Hsends).
      exists calls. split.
      * rewrite E. destruct w; cbn in *; subst. reflexivity.
      * unfold frames_of, non_empty. cbn [map filter]. rewrite Hb. exact Hsends.
    + rewrite (pump_sends_chunk env _ data rest)
        by (try exact Hs; try exact Ha; try exact Hq; try exact Hb; reflexivity).
      match goal with
      | |- context [Nat.iter _ _ ?x] =>
          destruct (IH x Hs Ha eq_refl eq_refl) as (calls & E & Hsends);
          rewrite E
      end.
      exists (Send (audio_event w (chunk_audio_bytes data))
                (accepted_next env w) :: calls).
      split.
      * destruct w; cbn in *; subst. rewrite <- app_assoc. reflexivity.
      * unfold frames_of, non_empty. cbn [map filter]. rewrite Hb.
        cbn [negb sends map]. f_equal. exact Hsends.
Qed.

(** X1.  On an active session the outbound loop empties the capture
    queue in order: after two steps per queued entry it has sent one
    [audioInput] event per non-empty entry, in the order the entries were
    queued, each stamped with the session's identifiers; entries with no
    bytes are dropped without an event. *)
Theorem pump_sends_in_capture_order (env : Env) (chunks : list chunk) (w : World) :
  stream_response w = true -> is_active w = true ->
  audio_input_task w = AtHead ->
  audio_input_queue w = chunks ->
  let w' := Nat.iter (2 * List.length chunks) (pump env) w in
  sends (new_calls w w') = map (audio_event w) (frames_of chunks)
  /\ audio_input_queue w' = []
  /\ is_active w' = true
  /\ audio_input_task w' = AtHead.
Proof.
  intros Hs Ha Ht Hq. cbv zeta.
  destruct (pump_drains env chunks w Hs Ha Ht Hq) as (calls & E & Hsends).
  rewrite E. rewrite (new_calls_app w _ calls) by reflexivity.
  repeat split; assumption.
Qed.

Lemma pump_sends_in_capture_order_witness :
  let env := all_accepted in
  let w := three_frames env in
  let w' := Nat.iter 6 (pump env) w in
  sends (new_calls w w') = [audio_event w [x01; x02]; audio_event w [x03]]
  /\ audio_input_queue w' = []
  /\ is_active w' = true
  /\ audio_input_task w' = AtHead.
Proof.
  cbv zeta.
  apply (pump_sends_in_capture_order all_accepted
           [mkChunk [x01; x02] "prompt-1" "audio-1"; mkChunk [] "prompt-1" "audio-1";
            mkChunk [x03] "prompt-1" "audio-1"]
           (three_frames all_accepted));
    vm_compute; reflexivity.
Defined.

Lemma perform_all_app (env : Env) (acts1 acts2 : list action) :
  forall w : World,
    perform_all env (acts1 ++ acts2) w
    = perform_all env acts2 (perform_all env acts1 w).
Proof.
  induction acts1 as [| a acts1 IH]; intros w; cbn [perform_all app].
  - reflexivity.
  - apply IH.
Qed.

Lemma perform_all_pump (env : Env) (k : nat) (w : World) :
  perform_all env (repeat StepProcessAudioInput k) w = Nat.iter k (pump env) w.
Proof.
  revert w. induction k as [| k IH]; intros w.
  - reflexivity.
  - cbn [repeat perform_all perform]. rewrite IH, Nat.iter_succ_r. reflexivity.
Qed.

Lemma perform_all_add_audio_chunk (env : Env) (frames : list (list byte)) :
  forall w : World,
    perform_all env (map CallAddAudioChunk frames) w
    = set_audio_input_queue
        (audio_input_queue w ++ map (chunk_of w) frames) w.
Proof.
  induction frames as [| frame frames IH]; intros w; cbn [map perform_all].
  - rewrite app_nil_r. destruct w; reflexivity.
  - rewrite IH. unfold run, perform, add_audio_chunk, modify. cbn [snd].
    destruct w; cbn. rewrite <- app_assoc. reflexivity.
Qed.

Lemma frames_of_chunk_of (w : World) (frames : list (list byte)) :
  frames_of (map (chunk_of w) frames) = non_empty frames.
Proof.
  unfold frames_of. rewrite map_map. cbn. rewrite map_id. reflexivity.
Qed.

Lemma kind_of_audio_events (w : World) (frames : list (list byte)) :
  map kind_of (map (audio_event w) frames)
  = map (fun _ => AudioInput (audio_content_name w)) frames.
Proof.
  rewrite map_map. apply map_ext. intros frame. reflexivity.
Qed.

(** X2.  A whole audio turn on an active session: the start call, any
    number of captured frames, the outbound loop run until the queue is
    empty, then the end call.  The wire sees ContentStart(AUDIO, USER), one
    AudioInput per non-empty frame in capture order, then ContentEnd, every
    one of them naming the session's audio content. *)
Theorem audio_turn_on_the_wire (env : Env) (frames : list (list byte)) (w : World) :
  stream_response w = true -> is_active w = true ->
  audio_input_task w = AtHead ->
  audio_input_queue w = [] ->
  let acts :=
    CallSendAudioContentStart
    :: map CallAddAudioChunk frames
    ++ repeat StepProcessAudioInput (2 * List.length frames)
    ++ [CallSendAudioContentEnd] in
  let w' := perform_all env acts w in
  let name := audio_content_name w in
  sends (new_calls w w')
  = content_start w :: map (audio_event w) (non_empty frames) ++ [content_end w]
  /\ map kind_of (sends (new_calls w w'))
     = ContentStart "AUDIO" "USER" name
       :: map (fun _ => AudioInput name) (non_empty frames) ++ [ContentEnd name]
  /\ audio_input_queue w' = []
  /\ is_active w' = true.
Proof.
  intros Hs Ha Ht Hq. cbv zeta.
  assert (E : exists calls,
    perform_all env
      (CallSendAudioContentStart
       :: map CallAddAudioChunk frames
       ++ repeat StepProcessAudioInput (2 * List.length frames)
       ++ [CallSendAudioContentEnd]) w
    = set_trace (trace w ++ calls) w
    /\ sends calls
       = content_start w :: map (audio_event w) (non_empty frames) ++ [content_end w]).
  { cbn [perform_all perform]. unfold run at 1.
    unfold send_audio_content_start, bind at 1, get at 1.
    rewrite send_raw_event_live by assumption. cbn [snd].
    rewrite !perform_all_app, perform_all_add_audio_chunk, perform_all_pump.
    cbn [perform_all perform].
    match goal with
    | |- context [Nat.iter _ _ ?x] =>
        destruct (pump_drains env (map (chunk_of x) frames) x Hs Ha Ht)
          as (calls & Edrain & Hsends);
          [ cbn [audio_input_queue set_audio_input_queue set_trace];
            rewrite Hq; reflexivity | ]
    end.
    rewrite length_map in Edrain. rewrite Edrain. clear Edrain.
    unfold run, send_audio_content_end, bind at 1, get at 1.
    rewrite send_raw_event_live by (try exact Hs; exact Ha). cbn [snd].
    rewrite frames_of_chunk_of in Hsends.
    lazymatch goal with
    | |- exists _, set_trace (_ ++ [Send _ ?b]) _ = _ /\ _ =>
        exists (Send (content_start w) (accepted_next env w)
                :: calls ++ [Send (content_end w) b])
    end.
    split.
    - destruct w; cbn in *; subst. rewrite <- !app_assoc. reflexivity.
    - cbn [app sends]. rewrite sends_app, Hsends. reflexivity. }
  destruct E as (calls & E & Hsends). rewrite E.
  rewrite (new_calls_app w _ calls) by reflexivity.
  rewrite Hsends. repeat split; try assumption.
  cbn [map]. rewrite map_app, kind_of_audio_events. reflexivity.
Qed.

Lemma audio_turn_on_the_wire_witness :
  let env := all_accepted in
  let w := initialized env in
  let frames := [[x01; x02]; [x03; x04; x05]] in
  let acts :=
    CallSendAudioContentStart
    :: map CallAddAudioChunk frames
    ++ repeat StepProcessAudioInput (2 * List.length frames)
    ++ [CallSendAudioContentEnd] in
  let w' := perform_all env acts w in
  sends (new_calls w w')
  = content_start w :: map (audio_event w) (non_empty frames) ++ [content_end w].
Proof.
  cbv zeta.
  apply (audio_turn_on_the_wire all_accepted [[x01; x02]; [x03; x04; x05]]
           (initialized all_accepted));
    vm_compute; reflexivity.
Defined.

(** ** Messages on their way in *)

Lemma has_audio_content_shape (json_data : json) (content : string) :
  has_audio_content json_data content ->
  exists fields event_fields,
    json_data = JObj fields
    /\ lookup "event" fields = Some (JObj event_fields)
    /\ exists audio_output,
         lookup "audioOutput" event_fields = Some audio_output.
Proof.
  unfold has_audio_content, getitem3, py_getitem.
  destruct json_data as [| | | | | | fields]; try discriminate.
  destruct (lookup "event" fields) as [event |] eqn:Hev; try discriminate.
  destruct event as [| | | | | | event_fields]; try discriminate.
  destruct (lookup "audioOutput" event_fields) as [audio_output |] eqn:Hao;
    try discriminate.
  intros _. exists fields, event_fields.
  split; [ reflexivity | ]. split; [ exact Hev | ].
  exists audio_output. exact Hao.
Qed.

Lemma handle_bytes_audio (json_data : json) (content : string) (w : World) :
  has_audio_content json_data content ->
  handle_bytes (Json json_data) w =
  match base64_b64decode (JStr content) with
  | Ok audio_bytes =>
      (Ok tt, set_audio_output_queue (audio_output_queue w ++ [audio_bytes]) w)
  | Raise e => (Raise e, w)
  end.
Proof.
  intros H.
  destruct (has_audio_content_shape _ _ H)
    as (fields & event_fields & -> & Hev & audio_output & Hao).
  unfold has_audio_content in H.
  unfold handle_bytes, bind, lift, modify. cbn [py_in py_getitem].
  rewrite Hev. cbn [py_in py_getitem]. rewrite Hao, H.
  destruct (base64_b64decode (JStr content)); reflexivity.
Qed.

Lemma dispatch_routes_audio (w : World) (json_data : json) (frame : list byte)
    (rest : list recv) :
  carries_audio json_data frame ->
  responses_task w = Suspended ->
  inbound w = received json_data :: rest ->
  dispatch w =
  set_responses_task AtHead
    (set_audio_output_queue (audio_output_queue w ++ [frame]) (set_inbound rest w)).
Proof.
  intros (content & Hc & Hd) Ht Hi.
  unfold dispatch, run, _process_responses.
  unfold bind at 1, get at 1. rewrite Ht, Hi.
  unfold bind at 1, modify at 1. unfold try_except, bind at 1.
  unfold received, receive_one, try_except.
  rewrite (handle_bytes_audio json_data content) by exact Hc.
  unfold base64_b64decode. rewrite Hd. reflexivity.
Qed.

Lemma dispatch_drains_audio (documents : list json) (frames : list (list byte)) :
  Forall2 carries_audio documents frames ->
  forall w : World,
    is_active w = true ->
    responses_task w = AtHead ->
    inbound w = map received documents ->
    Nat.iter (2 * List.length documents + 1) dispatch w
    = set_responses_task Suspended
        (set_audio_output_queue (audio_output_queue w ++ frames)
           (set_inbound [] w)).
Proof.
  induction 1 as [| json_data frame documents frames Hc _ IH];
    intros w Ha Ht Hi.
  - change (dispatch w
            = set_responses_task Suspended
                (set_audio_output_queue (audio_output_queue w ++ [])
                   (set_inbound [] w))).
    rewrite dispatch_resumes by assumption.
    cbn [map] in Hi. destruct w; cbn in *; subst. rewrite app_nil_r. reflexivity.
  - replace (2 * List.length (json_data :: documents) + 1)%nat
      with (S (S (2 * List.length documents + 1))) by (cbn [List.length]; lia).
    rewrite !Nat.iter_succ_r.
    rewrite (dispatch_resumes w) by assumption.
    rewrite (dispatch_routes_audio (set_responses_task Suspended w) json_data frame
               (map received documents) Hc eq_refl Hi).
    rewrite IH by (try exact Ha; reflexivity).
    destruct w; cbn in *; subst. rewrite <- app_assoc. reflexivity.
Qed.

(** X3.  Audio received from the model reaches the playback queue intact
    and in order: when the next messages are documents whose
    [event.audioOutput.content] holds valid base64, the inbound loop
    appends the decoded frames to the playback queue in arrival order,
    sends nothing, and is left waiting for more with the session active. *)
Theorem inbound_audio_is_queued_in_order (documents : list json)
    (frames : list (list byte)) (w : World) :
  Forall2 carries_audio documents frames ->
  is_active w = true ->
  responses_task w = AtHead ->
  inbound w = map received documents ->
  let w' := Nat.iter (2 * List.length documents + 1) dispatch w in
  audio_output_queue w' = audio_output_queue w ++ frames
  /\ trace w' = trace w
  /\ inbound w' = []
  /\ is_active w' = true
  /\ responses_task w' = Suspended.
Proof.
  intros Hc Ha Ht Hi. cbv zeta.
  rewrite (dispatch_drains_audio documents frames Hc w Ha Ht Hi).
  repeat split. exact Ha.
Qed.

Lemma inbound_audio_is_queued_in_order_witness :
  let documents := map audio_output_document [[x01; x02; x03]; [xff]] in
  let w := set_inbound (map received documents) (initialized all_accepted) in
  let w' := Nat.iter 5 dispatch w in
  audio_output_queue w' = [[x01; x02; x03]; [xff]]
  /\ trace w' = trace w
  /\ inbound w' = []
  /\ is_active w' = true
  /\ responses_task w' = Suspended.
Proof.
  cbv zeta.
  apply (inbound_audio_is_queued_in_order
           (map audio_output_document [[x01; x02; x03]; [xff]])
           [[x01; x02; x03]; [xff]]
           (set_inbound
              (map received (map audio_output_document [[x01; x02; x03]; [xff]]))
              (initialized all_accepted))).
  - repeat constructor; (eexists; split; vm_compute; reflexivity).
  - vm_compute; reflexivity.
  - vm_compute; reflexivity.
  - vm_compute; reflexivity.
Defined.

(** X4.  Messages that are not audio are passed over: an empty result,
    bytes that are not JSON, a document without an [event] key, or one
    whose event has no [audioOutput] (any other or unknown variant).  The
    step consumes the message and nothing else changes: no frame is
    queued, nothing is sent, no error ends the loop. *)
Theorem other_messages_are_ignored (message : recv) (rest : list recv) (w : World) :
  ignored message ->
  responses_task w = Suspended ->
  inbound w = message :: rest ->
  dispatch w = set_responses_task AtHead (set_inbound rest w).
Proof.
  intros Hm Ht Hi.
  unfold dispatch, run, _process_responses.
  unfold bind at 1, get at 1. rewrite Ht, Hi.
  unfold bind at 1, modify at 1. unfold try_except, bind at 1.
  destruct Hm as [| | fields Hev | fields event_fields Hev Hao | items Hno | s Hno];
    unfold received, receive_one, try_except, handle_bytes, bind, lift, ret, raise;
    cbn [py_in py_getitem]; rewrite ?Hev, ?Hno; cbn [py_in]; rewrite ?Hao;
    reflexivity.
Qed.

Lemma other_messages_are_ignored_witness :
  let message :=
    received (JObj [("event", JObj [("textOutput", JObj
      [("content", JStr "hello"); ("role", JStr "ASSISTANT")])])]) in
  let w :=
    dispatch (set_inbound [message; malformed] (initialized all_accepted)) in
  dispatch w = set_responses_task AtHead (set_inbound [malformed] w).
Proof.
  cbv zeta.
  apply (other_messages_are_ignored
           (received (JObj [("event", JObj [("textOutput", JObj
              [("content", JStr "hello"); ("role", JStr "ASSISTANT")])])]))).
  - apply (ignored_other_event _
             [("textOutput", JObj
                 [("content", JStr "hello"); ("role", JStr "ASSISTANT")])]);
      reflexivity.
  - vm_compute; reflexivity.
  - vm_compute; reflexivity.
Defined.

(** X5.  Any other failure ends the inbound loop at once and takes the
    session down with it: an exception from the receive (the end of the
    stream included), bytes that are not UTF-8, a JSON scalar where a
    container is expected, an [audioOutput] with no [content] or with one
    that is not text, and content that is not valid base64.  The step
    lowers [is_active], the task returns, and the messages after the
    offending one are never read. *)
Theorem fatal_message_ends_the_session (message : recv) (rest : list recv)
    (w : World) :
  fatal message ->
  responses_task w = Suspended ->
  inbound w = message :: rest ->
  dispatch w
  = set_responses_task Finished (set_is_active false (set_inbound rest w)).
Proof.
  intros Hm Ht Hi.
  unfold dispatch, run, _process_responses.
  unfold bind at 1, get at 1. rewrite Ht, Hi.
  unfold bind at 1, modify at 1. unfold try_except, bind at 1.
  destruct Hm as [e | | j Hj | fields j Hev Hj
                 | fields event_fields audio_fields Hev Hao Hc
                 | fields event_fields audio_fields j Hev Hao Hc Hj
                 | json_data content err Hc Hd].
  - reflexivity.
  - reflexivity.
  - destruct j; try discriminate Hj; reflexivity.
  - unfold received, receive_one, try_except, handle_bytes, bind, lift.
    cbn [py_in py_getitem]. rewrite Hev.
    destruct j; try discriminate Hj; reflexivity.
  - unfold received, receive_one, try_except, handle_bytes, bind, lift, getitem3.
    cbn [py_in py_getitem]. rewrite Hev. cbn [py_in py_getitem].
    rewrite Hao. cbn [py_getitem]. rewrite Hc. reflexivity.
  - unfold received, receive_one, try_except, handle_bytes, bind, lift, getitem3.
    cbn [py_in py_getitem]. rewrite Hev. cbn [py_in py_getitem].
    rewrite Hao. cbn [py_getitem]. rewrite Hc.
    destruct j; try discriminate Hj; reflexivity.
  - unfold received, receive_one, try_except.
    rewrite (handle_bytes_audio json_data content) by exact Hc.
    unfold base64_b64decode. rewrite Hd. destruct err; reflexivity.
Qed.

Lemma fatal_message_ends_the_session_witness :
  let message :=
    received (JObj [("event", JObj [("audioOutput", JObj
      [("contentName", JStr "c")])])]) in
  let w :=
    dispatch (set_inbound [message; malformed] (initialized all_accepted)) in
  dispatch w
  = set_responses_task Finished (set_is_active false (set_inbound [malformed] w)).
Proof.
  cbv zeta.
  apply (fatal_message_ends_the_session
           (received (JObj [("event", JObj [("audioOutput", JObj
              [("contentName", JStr "c")])])]))).
  - apply (fatal_no_content _ [("audioOutput", JObj [("contentName", JStr "c")])]
             [("contentName", JStr "c")]); reflexivity.
  - vm_compute; reflexivity.
  - vm_compute; reflexivity.
Defined.

(** ** Frames on their way to the speaker *)

Lemma play_resumes (w : World) :
  is_active w = true -> playback_task w = AtHead ->
  play w = set_playback_task Suspended w.
Proof.
  intros Ha Ht. unfold play, run, play_output_audio, bind, get.
  rewrite Ht, Ha. reflexivity.
Qed.

Lemma play_takes_frame (w : World) (frame : list byte) (rest : list (list byte)) :
  is_active w = true ->
  playback_task w = Suspended ->
  audio_output_queue w = frame :: rest ->
  play w =
  set_trace (trace w ++ writes w [frame])
    (set_audio_output_queue rest (set_playback_task AtHead w)).
Proof.
  intros Ha Ht Hq. unfold play, run, play_output_audio, writes, non_empty.
  unfold bind at 1, get at 1. rewrite Ht, Hq.
  unfold bind at 1, modify at 1. unfold bind at 1, modify at 1.
  rewrite Ha, andb_true_r. cbn [filter map].
  destruct (is_empty frame), (output_stream w); cbn [negb andb snd];
    unfold emit, modify, ret; cbn [snd]; try reflexivity.
  all: destruct w; cbn in *; subst; rewrite app_nil_r; reflexivity.
Qed.

Lemma writes_cons (w : World) (frame : list byte) (frames : list (list byte)) :
  writes w (frame :: frames) = writes w [frame] ++ writes w frames.
Proof.
  unfold writes, non_empty. cbn [filter].
  destruct (output_stream w), (is_empty frame); reflexivity.
Qed.

Lemma play_drains (frames : list (list byte)) :
  forall w : World,
    is_active w = true ->
    playback_task w = AtHead ->
    audio_output_queue w = frames ->
    Nat.iter (2 * List.length frames) play w
    = set_trace (trace w ++ writes w frames) (set_audio_output_queue [] w).
Proof.
  induction frames as [| frame frames IH]; intros w Ha Ht Hq.
  - unfold writes. destruct w as [? ? ? ? ? ? ? ? ? ? ? []]; cbn in *; subst;
      rewrite app_nil_r; reflexivity.
  - replace (2 * List.length (frame :: frames))%nat
      with (S (S (2 * List.length frames))) by (cbn [List.length]; lia).
    rewrite !Nat.iter_succ_r.
    rewrite (play_resumes w) by assumption.
    rewrite (play_takes_frame _ frame frames)
      by (try exact Ha; try exact Hq; reflexivity).
    rewrite IH by (try exact Ha; reflexivity).
    rewrite (writes_cons w frame frames).
    destruct w; cbn in *; subst. rewrite <- app_assoc. reflexivity.
Qed.

(** X6.  While the session is active the playback loop plays what is
    queued, oldest first: after two steps per queued frame the queue is
    empty and, when an output stream was set up, every non-empty frame has
    been handed to its [write] in queue order; with no output stream the
    frames are taken from the queue and dropped. *)
Theorem playback_writes_in_queue_order (frames : list (list byte)) (w : World) :
  is_active w = true ->
  playback_task w = AtHead ->
  audio_output_queue w = frames ->
  let w' := Nat.iter (2 * List.length frames) play w in
  new_calls w w' =
    match output_stream w with
    | Some _ => map WriteOutput (non_empty frames)
    | None => []
    end
  /\ audio_output_queue w' = []
  /\ playback_task w' = AtHead.
Proof.
  intros Ha Ht Hq. cbv zeta.
  rewrite (play_drains frames w Ha Ht Hq).
  rewrite (new_calls_app w _ (writes w frames)) by reflexivity.
  repeat split. exact Ht.
Qed.

Lemma playback_writes_in_queue_order_witness :
  let w := speaker_session in
  let w' := Nat.iter 6 play w in
  new_calls w w' = [WriteOutput [x01; x02]; WriteOutput [x03]]
  /\ audio_output_queue w' = []
  /\ playback_task w' = AtHead.
Proof.
  cbv zeta.
  apply (playback_writes_in_queue_order [[x01; x02]; []; [x03]] speaker_session);
    vm_compute; reflexivity.
Defined.

(** ** What a session can put on the wire *)

Lemma step_ok_same_trace (w w' : World) :
  identity w' = identity w -> trace w' = trace w -> step_ok w w'.
Proof.
  intros Hid Ht. split; [ exact Hid | ]. exists [].
  rewrite app_nil_r. split; [ exact Ht | constructor ].
Qed.

Lemma step_ok_silent (w w' : World) (calls : list call) :
  identity w' = identity w -> trace w' = trace w ++ calls ->
  sends calls = [] -> step_ok w w'.
Proof.
  intros Hid Ht Hs. split; [ exact Hid | ]. exists calls.
  rewrite Hs. split; [ exact Ht | constructor ].
Qed.

Lemma session_event_identity (w w' : World) (event : json) :
  identity w' = identity w -> session_event w event -> session_event w' event.
Proof.
  unfold identity, session_event, handshake, prompt_start, content_start_system,
    system_message, content_end_system, content_start, content_end, audio_event.
  intros Hid. injection Hid as -> -> -> ->. trivial.
Qed.

Lemma step_ok_trans (w1 w2 w3 : World) :
  step_ok w1 w2 -> step_ok w2 w3 -> step_ok w1 w3.
Proof.
  intros (Hid1 & calls1 & Ht1 & Hs1) (Hid2 & calls2 & Ht2 & Hs2).
  split; [ rewrite Hid2; exact Hid1 | ].
  exists (calls1 ++ calls2). split.
  - rewrite Ht2, Ht1, app_assoc. reflexivity.
  - rewrite sends_app. apply Forall_app. split; [ exact Hs1 | ].
    eapply Forall_impl; [ | exact Hs2 ].
    intros event. apply session_event_identity. symmetry. exact Hid1.
Qed.

Lemma send_raw_event_step_ok (env : Env) (event : json) (w : World) :
  session_event w event -> step_ok w (run (_send_raw_event env event) w).
Proof.
  intros Hev. unfold run.
  destruct (negb (stream_response w) || negb (is_active w)) eqn:Hidle.
  - rewrite send_raw_event_idle by exact Hidle.
    apply step_ok_same_trace; reflexivity.
  - apply orb_false_iff in Hidle as [Hs Ha].
    apply negb_false_iff in Hs, Ha.
    rewrite send_raw_event_live by assumption.
    split; [ reflexivity | ].
    exists [Send event (accepted_next env w)]. split; [ reflexivity | ].
    cbn [sends]. constructor; [ exact Hev | constructor ].
Qed.

Lemma session_event_turn (w : World) :
  session_event w (content_start w) /\ session_event w (content_end w).
Proof.
  split; left; apply in_or_app; right; cbn; auto.
Qed.

Lemma play_trace (w : World) :
  exists calls,
    trace (run play_output_audio w) = trace w ++ calls /\ sends calls = [].
Proof.
  unfold run, play_output_audio, emit, bind, get, modify, ret.
  cbv beta iota.
  destruct (playback_task w);
    try (destruct (is_active w));
    try (destruct (audio_output_queue w) as [| audio_data queue]);
    try (destruct (negb (is_empty audio_data) && _ && _));
    cbn [snd trace set_trace set_playback_task set_audio_output_queue];
    try (exists []; rewrite app_nil_r; split; reflexivity).
  all: exists [WriteOutput audio_data]; split; reflexivity.
Qed.

Lemma perform_step_ok (env : Env) (a : action) (w : World) :
  step_ok w (run (perform env a) w).
Proof.
  destruct a; cbn [perform].
  - apply (send_raw_event_step_ok env (content_start w) w), session_event_turn.
  - apply (send_raw_event_step_ok env (content_end w) w), session_event_turn.
  - apply step_ok_same_trace; reflexivity.
  - unfold run, _input_callback, bind, get.
    destruct (is_active w && negb (is_empty in_data));
      apply step_ok_same_trace; reflexivity.
  - destruct (stop_conversation_effect env w)
      as (res & calls & ins & outs & E & Hs).
    unfold run. rewrite E.
    apply (step_ok_silent _ _ calls); [ reflexivity | reflexivity | exact Hs ].
  - unfold run, _process_audio_input. unfold bind at 1, get at 1.
    destruct (audio_input_task w); try (apply step_ok_same_trace; reflexivity).
    + destruct (is_active w); apply step_ok_same_trace; reflexivity.
    + destruct (audio_input_queue w) as [| data rest];
        [ apply step_ok_same_trace; reflexivity | ].
      unfold bind at 1, modify at 1. unfold bind at 1, modify at 1.
      destruct (is_empty (chunk_audio_bytes data)) eqn:Hb;
        [ apply step_ok_same_trace; reflexivity | ].
      unfold bind at 1, get at 1.
      match goal with
      | |- step_ok _ (snd (_send_raw_event _ ?ev ?x)) =>
          apply (step_ok_trans w x);
            [ apply step_ok_same_trace; reflexivity
            | apply (send_raw_event_step_ok env ev x) ]
      end.
      right. exists (chunk_audio_bytes data). split; [ exact Hb | reflexivity ].
  - destruct (dispatch_effect w) as (q & rest & t & E).
    unfold dispatch in E. rewrite E. apply step_ok_same_trace; reflexivity.
  - destruct (play_trace w) as (calls & Ht & Hs).
    apply (step_ok_silent _ _ calls); [ | exact Ht | exact Hs ].
    destruct (play_effect w) as (q & t & calls' & E & _).
    unfold play in E. rewrite E. reflexivity.
Qed.

Lemma initialize_step_ok (env : Env) (w : World) :
  step_ok w (run (initialize_stream env) w).
Proof.
  unfold run. destruct (can_open env w) eqn:Hopen.
  - rewrite (initialize_stream_opened env w Hopen). cbn [snd].
    split; [ reflexivity | ].
    exists (OpenStream :: handshake_calls env w). split; [ reflexivity | ].
    cbn [sends]. rewrite sends_handshake_calls.
    apply Forall_forall. intros event Hin. left. apply in_or_app. left. exact Hin.
  - destruct (initialize_stream_refused env w Hopen) as (e & E).
    rewrite E. cbn [snd].
    destruct (client_ok env); apply step_ok_same_trace; reflexivity.
Qed.

Lemma perform_operations_step_ok (env : Env) (ops : list operation) :
  forall w : World, step_ok w (perform_operations env ops w).
Proof.
  induction ops as [| o ops IH]; intros w; cbn [perform_operations].
  - apply step_ok_same_trace; reflexivity.
  - apply (step_ok_trans w (run (perform_operation env o) w)); [ | apply IH ].
    destruct o as [| a]; cbn [perform_operation].
    + apply initialize_step_ok.
    + apply perform_step_ok.
Qed.

(** X7.  Whatever is done with a session object, in any number and order
    (initialising it, turn calls, captured audio, the device callback,
    stopping it, steps of its three tasks), its voice and its three
    identifiers never change, its record of calls only grows, and every
    event it hands to [send] is one of its own: a handshake event, the
    ContentStart or ContentEnd of its audio content, or an AudioInput for a
    non-empty frame, all carrying its prompt and content names. *)
Theorem only_session_events_are_sent (env : Env) (ops : list operation)
    (w : World) :
  let w' := perform_operations env ops w in
  identity w' = identity w
  /\ exists calls,
       trace w' = trace w ++ calls
       /\ Forall (session_event w) (sends calls).
Proof.
  exact (perform_operations_step_ok env ops w).
Qed.

(** ** Base64 text with other characters in it *)

Lemma a2b_base64_skips (cs : list ascii) :
  forall quad_pos leftchar pads out,
    Base64.a2b_base64 cs quad_pos leftchar pads out
    = Base64.a2b_base64 (filter is_base64_char cs) quad_pos leftchar pads out.
Proof.
  induction cs as [| c cs IH]; intros quad_pos leftchar pads out.
  - reflexivity.
  - cbn [filter]. unfold is_base64_char.
    destruct (Ascii.eqb c Base64.BASE64_PAD) eqn:Hpad.
    + cbn [orb Base64.a2b_base64]. rewrite Hpad.
      destruct (Nat.leb 2 quad_pos); [ | apply IH ].
      destruct (Nat.leb 4 (quad_pos + S pads)); [ reflexivity | apply IH ].
    + cbn [orb]. destruct (Base64.a2b c) as [this_ch |] eqn:Hc.
      * cbn [Base64.a2b_base64]. rewrite Hpad, Hc.
        destruct quad_pos as [| [| [| ?]]]; apply IH.
      * cbn [Base64.a2b_base64]. rewrite Hpad, Hc. apply IH.
Qed.

(** X8.  The decoder used on audio payloads skips what is not base64:
    an ASCII text whose alphabet and pad characters, read in order, are the
    encoding of [frame] decodes to [frame], whatever other characters (line
    breaks, blanks) sit in between. *)
Theorem b64decode_ignores_other_characters (text : string) (frame : list byte) :
  forallb Base64.is_ascii (list_ascii_of_string text) = true ->
  filter is_base64_char (list_ascii_of_string text) = Base64.b2a_base64 frame ->
  base64_b64decode (JStr text) = Ok frame.
Proof.
  intros Hascii Hfilter.
  unfold base64_b64decode, Base64.b64decode. rewrite Hascii.
  rewrite a2b_base64_skips, Hfilter, Base64Facts.a2b_base64_b2a_base64.
  reflexivity.
Qed.

Lemma b64decode_ignores_other_characters_witness :
  base64_b64decode (JStr "AQID
  BAU= ") = Ok [x01; x02; x03; x04; x05].
Proof.
  apply b64decode_ignores_other_characters; vm_compute; reflexivity.
Defined.

(** ** The webhook *)

Module WebhookFacts.
Import Webhook.

Lemma dict_get_set_same (key : string) (v : World) (d : sessions) :
  dict_get key (dict_set key v d) = Some v.
Proof.
  induction d as [| [k v'] d IH]; cbn.
  - rewrite String.eqb_refl. reflexivity.
  - destruct (String.eqb key k) eqn:E; cbn; rewrite E; [ reflexivity | exact IH ].
Qed.

Lemma dict_get_set_other (key other : string) (v : World) (d : sessions) :
  other <> key -> dict_get other (dict_set key v d) = dict_get other d.
Proof.
  intros Hne. induction d as [| [k v'] d IH]; cbn.
  - destruct (String.eqb_spec other key) as [-> | _]; [ contradiction | reflexivity ].
  - destruct (String.eqb_spec key k) as [-> | Hk]; cbn.
    + destruct (String.eqb_spec other k) as [-> | _]; [ contradiction | reflexivity ].
    + rewrite IH. reflexivity.
Qed.

Lemma dict_get_none_keys (key : string) (d : sessions) :
  dict_get key d = None <-> ~ In key (keys d).
Proof.
  unfold keys. induction d as [| [k v] d IH]; cbn.
  - split; [ intros _ [] | reflexivity ].
  - destruct (String.eqb_spec key k) as [-> | Hk].
    + split; [ discriminate | intros H; exfalso; apply H; left; reflexivity ].
    + rewrite IH. split.
      * intros H [E | Hin]; [ apply Hk; symmetry; exact E | exact (H Hin) ].
      * intros H Hin. apply H. right. exact Hin.
Qed.

Lemma dict_get_del_same (key : string) (d : sessions) :
  NoDup (keys d) -> dict_get key (dict_del key d) = None.
Proof.
  unfold keys. induction d as [| [k v] d IH]; cbn; intros Hnd.
  - reflexivity.
  - inversion Hnd as [| ? ? Hnotin Hnd']; subst.
    destruct (String.eqb_spec key k) as [-> | Hk].
    + apply dict_get_none_keys. exact Hnotin.
    + cbn. destruct (String.eqb_spec key k); [ contradiction | apply IH, Hnd' ].
Qed.

Lemma dict_get_del_other (key other : string) (d : sessions) :
  other <> key -> dict_get other (dict_del key d) = dict_get other d.
Proof.
  intros Hne. induction d as [| [k v] d IH]; cbn.
  - reflexivity.
  - destruct (String.eqb_spec key k) as [-> | Hk]; cbn.
    + destruct (String.eqb_spec other k) as [-> | _]; [ contradiction | reflexivity ].
    + rewrite IH. reflexivity.
Qed.

Lemma keys_set_present (key : string) (v v' : World) (d : sessions) :
  dict_get key d = Some v' -> keys (dict_set key v d) = keys d.
Proof.
  unfold keys. induction d as [| [k u] d IH]; cbn; intros H.
  - discriminate H.
  - destruct (String.eqb key k); cbn; [ reflexivity | rewrite (IH H); reflexivity ].
Qed.

Lemma keys_set_fresh (key : string) (v : World) (d : sessions) :
  dict_get key d = None -> keys (dict_set key v d) = keys d ++ [key].
Proof.
  unfold keys. induction d as [| [k u] d IH]; cbn; intros H.
  - reflexivity.
  - destruct (String.eqb key k); [ discriminate H | ].
    cbn. rewrite (IH H). reflexivity.
Qed.

Lemma keys_del (key : string) (d : sessions) :
  NoDup (keys d) -> keys (dict_del key d) = List.remove string_dec key (keys d).
Proof.
  unfold keys. induction d as [| [k v] d IH]; cbn; intros Hnd.
  - reflexivity.
  - inversion Hnd as [| ? ? Hnotin Hnd']; subst.
    destruct (String.eqb_spec key k) as [-> | Hk].
    + destruct (string_dec k k) as [_ | Hne]; [ | contradiction ].
      symmetry. apply notin_remove. exact Hnotin.
    + destruct (string_dec key k) as [E | _]; [ contradiction | ].
      cbn. rewrite (IH Hnd'). reflexivity.
Qed.

End WebhookFacts.

(** X9.  [POST /conversation/start].  When a stream can be opened the
    request succeeds: the new session is stored under the new id, active
    and with the handshake sent (and nothing else); no other id is
    affected and, the id being new, it is listed last.  When no stream can
    be opened the request fails with status 500 and the registry is as it
    was.  The [system_message] of the request plays no part. *)
Theorem start_conversation_registers_session (env : Env) (new_id : string)
    (ids : Webhook.draws) (request : Webhook.ConversationStart)
    (active_sessions : Webhook.sessions) :
  let created :=
    __init__ env (Webhook.voice_id request) (Webhook.region request)
      (Webhook.prompt_draw ids) (Webhook.content_draw ids)
      (Webhook.audio_content_draw ids) in
  let r := Webhook.start_conversation env new_id ids request active_sessions in
  if can_open env created then
    fst r = Webhook.Returned (new_id, Webhook.voice_id request)
    /\ (exists nova_sonic,
          Webhook.dict_get new_id (snd r) = Some nova_sonic
          /\ is_active nova_sonic = true
          /\ sends (trace nova_sonic) = handshake created)
    /\ (forall other, other <> new_id ->
          Webhook.dict_get other (snd r) = Webhook.dict_get other active_sessions)
    /\ (Webhook.dict_get new_id active_sessions = None ->
          Webhook.list_active_sessions (snd r)
          = (S (List.length active_sessions),
             Webhook.keys active_sessions ++ [new_id]))
  else
    (exists e,
       fst r = Webhook.HTTPException 500 (Webhook.CaughtException e))
    /\ snd r = active_sessions.
Proof.
  cbv zeta. unfold Webhook.start_conversation.
  set (created := __init__ env _ _ _ _ _).
  destruct (can_open env created) eqn:Hopen.
  - rewrite (initialize_stream_opened env created Hopen). cbn [fst snd].
    split; [ reflexivity | ]. split; [ | split ].
    + eexists. split; [ apply WebhookFacts.dict_get_set_same | ].
      split; [ reflexivity | ].
      cbn [trace set_trace set_audio_input_task set_responses_task].
      rewrite sends_app. cbn [sends]. rewrite sends_handshake_calls.
      unfold created, __init__, run, _initialize_client.
      destruct (client_ok env); reflexivity.
    + intros other Hne. apply WebhookFacts.dict_get_set_other. exact Hne.
    + intros Hfresh. unfold Webhook.list_active_sessions.
      rewrite (WebhookFacts.keys_set_fresh _ _ _ Hfresh).
      f_equal. rewrite <- (length_map fst (Webhook.dict_set _ _ _)).
      change (map fst ?d) with (Webhook.keys d).
      rewrite (WebhookFacts.keys_set_fresh _ _ _ Hfresh).
      rewrite length_app. unfold Webhook.keys. rewrite length_map. cbn. lia.
  - destruct (initialize_stream_refused env created Hopen) as (e & E).
    rewrite E. cbn [fst snd]. split; [ exists e | ]; reflexivity.
Qed.

(** [_send_raw_event] always returns normally and touches the trace only. *)
Lemma send_raw_event_run (env : Env) (event : json) (w : World) :
  exists calls,
    _send_raw_event env event w = (Ok tt, set_trace (trace w ++ calls) w)
    /\ (calls = [] \/ calls = [Send event (accepted_next env w)]).
Proof.
  destruct (negb (stream_response w) || negb (is_active w)) eqn:Hidle.
  - exists []. split; [ | left; reflexivity ].
    rewrite send_raw_event_idle by exact Hidle.
    destruct w; cbn. rewrite app_nil_r. reflexivity.
  - apply orb_false_iff in Hidle as [Hs Ha].
    apply negb_false_iff in Hs, Ha.
    exists [Send event (accepted_next env w)]. split; [ | right; reflexivity ].
    apply send_raw_event_live; assumption.
Qed.

(** Once the queue is empty the outbound task moves between the loop head
    and the wait, and changes nothing else. *)
Lemma pump_settles (env : Env) (k : nat) :
  forall w : World,
    is_active w = true ->
    is_running (audio_input_task w) = true ->
    audio_input_queue w = [] ->
    exists t, Nat.iter k (pump env) w = set_audio_input_task t w.
Proof.
  induction k as [| k IH]; intros w Ha Hr Hq.
  - exists (audio_input_task w). destruct w; reflexivity.
  - rewrite Nat.iter_succ_r.
    destruct (audio_input_task w) eqn:Ht; try discriminate Hr.
    + rewrite (pump_resumes env w Ha Ht).
      destruct (IH (set_audio_input_task Suspended w) Ha eq_refl Hq) as (t & E).
      exists t. rewrite E. destruct w; reflexivity.
    + rewrite (pump_waits env w Ht Hq).
      destruct (IH w Ha) as (t & E); [ rewrite Ht; reflexivity | exact Hq | ].
      exists t. exact E.
Qed.

(** What the endpoint does to the session object, the outbound task being
    scheduled at least once during the sleep. *)
Lemma audio_body_scheduled (env : Env) (k : nat) (w : World)
    (audio_bytes : list byte) :
  is_empty audio_bytes = false ->
  stream_response w = true -> is_active w = true ->
  audio_input_task w = Suspended ->
  audio_input_queue w = [] ->
  exists after,
    (send_audio_content_start env ;;
     add_audio_chunk audio_bytes ;;
     modify (perform_all env (repeat StepProcessAudioInput (S k))) ;;
     send_audio_content_end env) w = (Ok tt, after)
    /\ sends (new_calls w after)
       = [content_start w; audio_event w audio_bytes; content_end w]
    /\ audio_input_queue after = [].
Proof.
  intros Hne Hs Ha Ht Hq.
  unfold send_audio_content_start, add_audio_chunk, send_audio_content_end.
  unfold bind at 1. unfold bind at 1, get at 1.
  rewrite send_raw_event_live by assumption.
  unfold bind at 1, modify at 1. unfold bind at 1, modify at 1.
  rewrite perform_all_pump, Nat.iter_succ_r.
  cbn [audio_input_queue set_trace prompt_name audio_content_name]. rewrite Hq.
  cbn [app].
  match goal with
  | |- context [pump env ?x] =>
      rewrite (pump_sends_chunk env x (chunk_of w audio_bytes) [])
        by (try exact Hs; try exact Ha; try exact Ht; try exact Hne; reflexivity)
  end.
  match goal with
  | |- context [Nat.iter k (pump env) ?x] =>
      destruct (pump_settles env k x Ha eq_refl eq_refl) as (t & E); rewrite E
  end.
  unfold bind at 1, get at 1.
  rewrite send_raw_event_live by (try exact Hs; exact Ha).
  eexists. split; [ reflexivity | ]. split; [ | reflexivity ].
  erewrite new_calls_app;
    [ | cbn [trace set_trace set_audio_input_task set_audio_input_queue];
        rewrite <- !app_assoc; reflexivity ].
  reflexivity.
Qed.

(** The same, the outbound task not being scheduled. *)
Lemma audio_body_starved (env : Env) (w : World) (audio_bytes : list byte) :
  stream_response w = true -> is_active w = true ->
  audio_input_queue w = [] ->
  exists after,
    (send_audio_content_start env ;;
     add_audio_chunk audio_bytes ;;
     modify (perform_all env []) ;;
     send_audio_content_end env) w = (Ok tt, after)
    /\ sends (new_calls w after) = [content_start w; content_end w]
    /\ audio_input_queue after = [chunk_of w audio_bytes].
Proof.
  intros Hs Ha Hq.
  unfold send_audio_content_start, add_audio_chunk, send_audio_content_end.
  unfold bind at 1. unfold bind at 1, get at 1.
  rewrite send_raw_event_live by assumption.
  unfold bind at 1, modify at 1. unfold bind at 1, modify at 1.
  cbn [perform_all].
  cbn [audio_input_queue set_trace prompt_name audio_content_name]. rewrite Hq.
  cbn [app].
  unfold bind at 1, get at 1.
  rewrite send_raw_event_live by (try exact Hs; exact Ha).
  eexists. split; [ reflexivity | ]. split; [ | reflexivity ].
  erewrite new_calls_app;
    [ | cbn [trace set_trace set_audio_input_task set_audio_input_queue];
        rewrite <- !app_assoc; reflexivity ].
  reflexivity.
Qed.

(** X10.  [POST /conversation/audio] on a registered, active session
    whose outbound task is waiting.  If that task is scheduled at least
    once while the endpoint sleeps, the wire sees ContentStart, the
    AudioInput with the decoded audio, then ContentEnd.  If it is not
    scheduled, the wire sees ContentStart and ContentEnd only, and the
    audio is still in the capture queue when the request returns: it will
    go out after the turn was closed.  Either way the request succeeds and
    the registry holds the session as the calls left it. *)
Theorem audio_request_on_the_wire (env : Env) (request : Webhook.AudioMessage)
    (k : nat) (active_sessions : Webhook.sessions) (nova_sonic : World)
    (audio_bytes : list byte) :
  Webhook.dict_get (Webhook.session_id request) active_sessions = Some nova_sonic ->
  Base64.b64decode (Webhook.audio_base64 request) = inr audio_bytes ->
  is_empty audio_bytes = false ->
  stream_response nova_sonic = true -> is_active nova_sonic = true ->
  audio_input_task nova_sonic = Suspended ->
  audio_input_queue nova_sonic = [] ->
  let sid := Webhook.session_id request in
  let scheduled :=
    Webhook.send_audio_message env request
      (repeat StepProcessAudioInput (S k)) active_sessions in
  let starved := Webhook.send_audio_message env request [] active_sessions in
  (fst scheduled = Webhook.Returned sid
   /\ exists after,
        Webhook.dict_get sid (snd scheduled) = Some after
        /\ sends (new_calls nova_sonic after)
           = [content_start nova_sonic; audio_event nova_sonic audio_bytes;
              content_end nova_sonic]
        /\ audio_input_queue after = [])
  /\ (fst starved = Webhook.Returned sid
      /\ exists after,
           Webhook.dict_get sid (snd starved) = Some after
           /\ sends (new_calls nova_sonic after)
              = [content_start nova_sonic; content_end nova_sonic]
           /\ audio_input_queue after = [chunk_of nova_sonic audio_bytes]).
Proof.
  intros Hget Hdec Hne Hs Ha Ht Hq. cbv zeta.
  unfold Webhook.send_audio_message, Webhook.on_session, base64_b64decode.
  rewrite Hget, Hdec.
  destruct (audio_body_scheduled env k nova_sonic audio_bytes Hne Hs Ha Ht Hq)
    as (after & E & Hsends & Hqueue).
  destruct (audio_body_starved env nova_sonic audio_bytes Hs Ha Hq)
    as (after0 & E0 & Hsends0 & Hqueue0).
  rewrite E, E0. cbn [fst snd]. split.
  - split; [ reflexivity | ]. exists after.
    split; [ apply WebhookFacts.dict_get_set_same | ]. split; assumption.
  - split; [ reflexivity | ]. exists after0.
    split; [ apply WebhookFacts.dict_get_set_same | ]. split; assumption.
Qed.

Lemma audio_request_on_the_wire_witness :
  let env := all_accepted in
  let request := Webhook.mkAudioMessage "AQID" "session-1" in
  let scheduled :=
    Webhook.send_audio_message env request
      (repeat StepProcessAudioInput 3) (one_session env) in
  fst scheduled = Webhook.Returned "session-1".
Proof.
  cbv zeta.
  refine (proj1 (proj1
    (audio_request_on_the_wire all_accepted
       (Webhook.mkAudioMessage "AQID" "session-1") 2 (one_session all_accepted)
       (pump all_accepted (initialized all_accepted)) [x01; x02; x03]
       _ _ _ _ _ _ _)));
    vm_compute; reflexivity.
Defined.

(** X11.  [POST /conversation/end/{session_id}] on a registered session
    whose device streams, if it has any, were not closed (the webhook
    opens none): the endpoint stops it and removes it; the request
    succeeds, the id is gone from the registry and from the listing, every
    other session is untouched.  From then on a request for that id, to
    end it again or to send it audio, fails with status 500 (the 404
    raised inside the endpoint's [try] is caught by its own
    [except Exception] and re-raised as 500) and changes nothing.  On a
    session with a closed device stream the stop raises: the request fails
    with status 500 and the session stays registered, inactive. *)
Theorem end_conversation_removes_session (env : Env) (sid : string)
    (active_sessions : Webhook.sessions) (nova_sonic : World) :
  NoDup (Webhook.keys active_sessions) ->
  Webhook.dict_get sid active_sessions = Some nova_sonic ->
  let r := Webhook.end_conversation env sid active_sessions in
  let gone := Webhook.HTTPException 500 (Webhook.CaughtHTTPException 404) in
  if usable (input_stream nova_sonic) && usable (output_stream nova_sonic) then
    fst r = Webhook.Returned sid
    /\ Webhook.dict_get sid (snd r) = None
    /\ Webhook.keys (snd r)
       = List.remove string_dec sid (Webhook.keys active_sessions)
    /\ (forall other, other <> sid ->
          Webhook.dict_get other (snd r) = Webhook.dict_get other active_sessions)
    /\ Webhook.end_conversation env sid (snd r) = (gone, snd r)
    /\ (forall audio during,
          Webhook.send_audio_message env (Webhook.mkAudioMessage audio sid)
            during (snd r)
          = (gone, snd r))
  else
    fst r = Webhook.HTTPException 500 (Webhook.CaughtException OSError)
    /\ Webhook.keys (snd r) = Webhook.keys active_sessions
    /\ exists after,
         Webhook.dict_get sid (snd r) = Some after /\ is_active after = false.
Proof.
  intros Hnd Hget. cbv zeta.
  set (stopped := snd (stop_conversation env nova_sonic)).
  assert (Hkeys : Webhook.keys (Webhook.dict_set sid stopped active_sessions)
                  = Webhook.keys active_sessions)
    by (apply (WebhookFacts.keys_set_present _ _ nova_sonic), Hget).
  assert (Hraised :
    fst (stop_conversation env nova_sonic) = Raise OSError ->
    Webhook.end_conversation env sid active_sessions
    = (Webhook.HTTPException 500 (Webhook.CaughtException OSError),
       Webhook.dict_set sid stopped active_sessions)).
  { unfold Webhook.end_conversation, Webhook.on_session, stopped.
    rewrite Hget. destruct (stop_conversation env nova_sonic) as [res after].
    cbn [fst snd]. intros ->. reflexivity. }
  assert (Hflag : is_active stopped = false)
    by apply (stop_conversation_silent env nova_sonic).
  destruct (usable (input_stream nova_sonic)) eqn:Hin;
    [ destruct (usable (output_stream nova_sonic)) eqn:Hout | ];
    cbn [andb].
  - clear Hraised.
    assert (Er : Webhook.end_conversation env sid active_sessions
                 = (Webhook.Returned sid,
                    Webhook.dict_del sid
                      (Webhook.dict_set sid stopped active_sessions))).
    { unfold Webhook.end_conversation, Webhook.on_session, stopped.
      rewrite Hget, stop_conversation_run by assumption. reflexivity. }
    rewrite Er. cbn [fst snd].
    assert (Hgone : Webhook.dict_get sid
                      (Webhook.dict_del sid
                         (Webhook.dict_set sid stopped active_sessions)) = None)
      by (apply WebhookFacts.dict_get_del_same; rewrite Hkeys; exact Hnd).
    split; [ reflexivity | ]. split; [ exact Hgone | ].
    split; [ | split; [ | split ] ].
    + rewrite WebhookFacts.keys_del by (rewrite Hkeys; exact Hnd).
      rewrite Hkeys. reflexivity.
    + intros other Hne.
      rewrite WebhookFacts.dict_get_del_other by exact Hne.
      apply WebhookFacts.dict_get_set_other. exact Hne.
    + unfold Webhook.end_conversation. rewrite Hgone. reflexivity.
    + intros audio during. unfold Webhook.send_audio_message.
      cbn [Webhook.session_id]. rewrite Hgone. reflexivity.
  - rewrite Hraised
      by (rewrite stop_conversation_raises_output by assumption; reflexivity).
    cbn [fst snd]. split; [ reflexivity | ]. split; [ exact Hkeys | ].
    exists stopped. split; [ apply WebhookFacts.dict_get_set_same | exact Hflag ].
  - rewrite Hraised
      by (rewrite stop_conversation_raises_input by assumption; reflexivity).
    cbn [fst snd]. split; [ reflexivity | ]. split; [ exact Hkeys | ].
    exists stopped. split; [ apply WebhookFacts.dict_get_set_same | exact Hflag ].
Qed.

Lemma end_conversation_removes_session_witness :
  let env := all_accepted in
  let r := Webhook.end_conversation env "session-1" (one_session env) in
  fst r = Webhook.Returned "session-1" /\ snd r = [].
Proof.
  cbv zeta. split.
  - assert (NoDup (Webhook.keys (one_session all_accepted))) as Hnd
      by (repeat constructor; intros []).
    assert (Webhook.dict_get "session-1" (one_session all_accepted)
            = Some (pump all_accepted (initialized all_accepted))) as Hget
      by (vm_compute; reflexivity).
    pose proof
      (end_conversation_removes_session all_accepted "session-1"
         (one_session all_accepted)
         (pump all_accepted (initialized all_accepted)) Hnd Hget) as H.
    cbv zeta in H.
    lazymatch type of H with
    | if ?c then _ else _ =>
        assert (E : c = true) by (vm_compute; reflexivity); rewrite E in H
    end.
    exact (proj1 H).
  - vm_compute; reflexivity.
Defined.

(** X12.  A file sent to [POST /upload-audio] and played back into
    [POST /conversation/audio] arrives whole: the reported size is the
    number of bytes of the file, and the text returned for it, sent as
    [audio_base64] to a registered session, puts exactly the bytes of the
    file at the end of that session's capture queue.  This holds for every
    file, the empty one included, and whatever state the session is in
    (the endpoint does not look at it). *)
Theorem uploaded_audio_reaches_the_queue (env : Env) (sid : string)
    (audio_content : list byte) (active_sessions : Webhook.sessions)
    (nova_sonic : World) :
  Webhook.dict_get sid active_sessions = Some nova_sonic ->
  let uploaded := Webhook.upload_audio_file audio_content in
  let r :=
    Webhook.send_audio_message env (Webhook.mkAudioMessage (snd uploaded) sid)
      [] active_sessions in
  fst uploaded = List.length audio_content
  /\ fst r = Webhook.Returned sid
  /\ exists after,
       Webhook.dict_get sid (snd r) = Some after
       /\ audio_input_queue after
          = audio_input_queue nova_sonic ++ [chunk_of nova_sonic audio_content].
Proof.
  intros Hget. cbv zeta.
  unfold Webhook.upload_audio_file, Webhook.send_audio_message, Webhook.on_session.
  cbn [fst snd Webhook.session_id Webhook.audio_base64].
  rewrite Hget, base64_b64decode_b64encode.
  split; [ reflexivity | ].
  assert (E : exists calls,
    (send_audio_content_start env ;;
     add_audio_chunk audio_content ;;
     modify (perform_all env []) ;;
     send_audio_content_end env) nova_sonic
    = (Ok tt,
       set_trace (trace nova_sonic ++ calls)
         (set_audio_input_queue
            (audio_input_queue nova_sonic ++ [chunk_of nova_sonic audio_content])
            nova_sonic))).
  { unfold send_audio_content_start, add_audio_chunk, send_audio_content_end.
    unfold bind at 1. unfold bind at 1, get at 1.
    destruct (send_raw_event_run env (content_start nova_sonic) nova_sonic)
      as (calls1 & E1 & _).
    rewrite E1.
    unfold bind at 1, modify at 1. unfold bind at 1, modify at 1.
    cbn [perform_all]. unfold bind at 1, get at 1.
    match goal with
    | |- context [_send_raw_event env ?ev ?x] =>
        destruct (send_raw_event_run env ev x) as (calls2 & E2 & _); rewrite E2
    end.
    exists (calls1 ++ calls2).
    cbn [trace set_trace set_audio_input_queue].
    rewrite <- app_assoc. reflexivity. }
  destruct E as (calls & E). rewrite E. cbn [fst snd].
  split; [ reflexivity | ]. eexists.
  split; [ apply WebhookFacts.dict_get_set_same | reflexivity ].
Qed.

Lemma uploaded_audio_reaches_the_queue_witness :
  let env := all_accepted in
  let uploaded := Webhook.upload_audio_file [x01; x02; x03; x04] in
  let r :=
    Webhook.send_audio_message env
      (Webhook.mkAudioMessage (snd uploaded) "session-1") [] (one_session env) in
  fst uploaded = 4%nat /\ fst r = Webhook.Returned "session-1".
Proof.
  cbv zeta.
  destruct (uploaded_audio_reaches_the_queue all_accepted "session-1"
              [x01; x02; x03; x04] (one_session all_accepted)
              (pump all_accepted (initialized all_accepted)))
    as (Hsize & Hr & _).
  - vm_compute; reflexivity.
  - split; [ exact Hsize | exact Hr ].
Defined.

(** ** A conversation from the microphone *)

Lemma audio_event_identity (w w' : World) (frames : list (list byte)) :
  identity w' = identity w ->
  map (audio_event w') frames = map (audio_event w) frames.
Proof.
  unfold identity. intros Hid. injection Hid as _ Hp _ Ha.
  apply map_ext. intros frame. unfold audio_event. rewrite Hp, Ha. reflexivity.
Qed.

Lemma content_start_identity (w w' : World) :
  identity w' = identity w -> content_start w' = content_start w.
Proof.
  unfold identity. intros Hid. injection Hid as _ Hp _ Ha.
  unfold content_start. rewrite Hp, Ha. reflexivity.
Qed.

Lemma audio_only_same_trace (w w' : World) :
  identity w' = identity w -> trace w' = trace w -> audio_only w w'.
Proof.
  intros Hid Ht. split; [ exact Hid | ]. exists [], [].
  rewrite app_nil_r. split; [ exact Ht | reflexivity ].
Qed.

Lemma audio_only_trans (w1 w2 w3 : World) :
  audio_only w1 w2 -> audio_only w2 w3 -> audio_only w1 w3.
Proof.
  intros (Hid1 & calls1 & frames1 & Ht1 & Hs1)
         (Hid2 & calls2 & frames2 & Ht2 & Hs2).
  split; [ rewrite Hid2; exact Hid1 | ].
  exists (calls1 ++ calls2), (frames1 ++ frames2). split.
  - rewrite Ht2, Ht1, app_assoc. reflexivity.
  - rewrite sends_app, map_app, Hs1, Hs2.
    rewrite (audio_event_identity w1 w2 frames2 Hid1). reflexivity.
Qed.

Lemma background_audio_only (env : Env) (a : action) (w : World) :
  is_background a = true -> audio_only w (run (perform env a) w).
Proof.
  intros Hbg. destruct a; try discriminate Hbg; cbn [perform].
  - apply audio_only_same_trace; reflexivity.
  - unfold run, _input_callback, bind, get.
    destruct (is_active w && negb (is_empty in_data));
      apply audio_only_same_trace; reflexivity.
  - unfold run, _process_audio_input. unfold bind at 1, get at 1.
    destruct (audio_input_task w); try (apply audio_only_same_trace; reflexivity).
    + destruct (is_active w); apply audio_only_same_trace; reflexivity.
    + destruct (audio_input_queue w) as [| data rest];
        [ apply audio_only_same_trace; reflexivity | ].
      unfold bind at 1, modify at 1. unfold bind at 1, modify at 1.
      destruct (is_empty (chunk_audio_bytes data)) eqn:Hb;
        [ apply audio_only_same_trace; reflexivity | ].
      unfold bind at 1, get at 1.
      match goal with
      | |- audio_only _ (snd (_send_raw_event _ ?ev ?x)) =>
          destruct (send_raw_event_run env ev x) as (calls & E & Hcalls);
            rewrite E
      end.
      split; [ reflexivity | ].
      destruct Hcalls as [-> | ->].
      * exists [], []. split; reflexivity.
      * eexists. exists [chunk_audio_bytes data]. split; reflexivity.
  - destruct (dispatch_effect w) as (q & rest & t & E).
    unfold dispatch in E. rewrite E. apply audio_only_same_trace; reflexivity.
  - destruct (play_trace w) as (calls & Ht & Hs).
    split.
    + destruct (play_effect w) as (q & t & calls' & E & _).
      unfold play in E. rewrite E. reflexivity.
    + exists calls, []. split; [ exact Ht | exact Hs ].
Qed.

Lemma background_all_audio_only (env : Env) (during : list action) :
  forall w : World,
    forallb is_background during = true ->
    audio_only w (perform_all env during w).
Proof.
  induction during as [| a during IH]; intros w Hbg; cbn [perform_all].
  - apply audio_only_same_trace; reflexivity.
  - cbn [forallb] in Hbg. apply andb_true_iff in Hbg as [Ha Hrest].
    apply (audio_only_trans w (run (perform env a) w)).
    + apply background_audio_only. exact Ha.
    + apply IH. exact Hrest.
Qed.

Lemma background_keeps_devices (env : Env) (a : action) (w : World) :
  is_background a = true -> devices (run (perform env a) w) = devices w.
Proof.
  intros Hbg. destruct a; try discriminate Hbg; cbn [perform].
  - reflexivity.
  - unfold run, _input_callback, bind, get.
    destruct (is_active w && negb (is_empty in_data)); reflexivity.
  - unfold run, _process_audio_input. unfold bind at 1, get at 1.
    destruct (audio_input_task w); try reflexivity.
    + destruct (is_active w); reflexivity.
    + destruct (audio_input_queue w) as [| data rest]; [ reflexivity | ].
      unfold bind at 1, modify at 1. unfold bind at 1, modify at 1.
      destruct (is_empty (chunk_audio_bytes data)); [ reflexivity | ].
      unfold bind at 1, get at 1.
      match goal with
      | |- context [snd (_send_raw_event _ ?ev ?x)] =>
          destruct (send_raw_event_run env ev x) as (calls & E & _);
            rewrite E
      end.
      reflexivity.
  - destruct (dispatch_effect w) as (q & rest & t & E).
    unfold dispatch in E. rewrite E. reflexivity.
  - destruct (play_effect w) as (q & t & calls & E & _).
    unfold play in E. rewrite E. reflexivity.
Qed.

Lemma background_all_keeps_devices (env : Env) (during : list action) :
  forall w : World,
    forallb is_background during = true ->
    input_stream (perform_all env during w) = input_stream w
    /\ output_stream (perform_all env during w) = output_stream w.
Proof.
  assert (H : forall w : World,
    forallb is_background during = true ->
    devices (perform_all env during w) = devices w).
  { induction during as [| a during IH]; intros w Hbg; cbn [perform_all].
    - reflexivity.
    - cbn [forallb] in Hbg. apply andb_true_iff in Hbg as [Ha Hrest].
      rewrite (IH _ Hrest). apply background_keeps_devices. exact Ha. }
  intros w Hbg. specialize (H w Hbg). unfold devices in H.
  split; [ exact (f_equal fst H) | exact (f_equal snd H) ].
Qed.

Lemma setup_audio_streams_run (audio : Audio) (w : World) :
  setup_audio_streams audio w =
  (Ok tt,
   set_output_stream
     (if input_open_ok audio && output_open_ok audio
      then Some (mkPaStream true false) else output_stream w)
     (set_input_stream
        (if input_open_ok audio
         then Some (mkPaStream true false) else input_stream w)
        w)).
Proof.
  unfold setup_audio_streams, bind, modify, ret.
  destruct (input_open_ok audio), (output_open_ok audio); destruct w; reflexivity.
Qed.

Lemma start_input_stream_run (w : World) :
  start_input_stream w =
  if usable (input_stream w) then
    (Ok tt,
     set_input_stream
       (option_map (fun _ => mkPaStream true false) (input_stream w)) w)
  else (Raise OSError, w).
Proof.
  unfold start_input_stream, bind, get, modify, ret, raise.
  destruct w as [? ? ? ? ? ? ? ? ? ? [[? []] |] ?]; reflexivity.
Qed.

Lemma stopped_closed (st : option pa_stream) : stopped (closed st) = true.
Proof. destruct st; reflexivity. Qed.

Lemma usable_started (st : option pa_stream) :
  usable (option_map (fun _ => mkPaStream true false) st) = true.
Proof. destruct st; reflexivity. Qed.

(** The conversation up to the moment it stops: the session before the
    teardown, and what went out until then.  It gets that far when the
    input stream it starts is one it could open or one that was not
    closed; the stop then returns or raises by the output stream. *)
Lemma start_conversation_run (env : Env) (audio : Audio)
    (during : list action) (w : World) :
  stream_response w = true -> is_active w = true ->
  forallb is_background during = true ->
  input_open_ok audio || usable (input_stream w) = true ->
  exists before calls frames accepted,
    start_conversation env audio during w =
    (if input_open_ok audio && output_open_ok audio || usable (output_stream w)
     then
       (Ok tt,
        set_playback_task Finished
          (set_trace (trace before ++ teardown before) (stopped_streams before)))
     else (Raise OSError, snd (stop_conversation env before)))
    /\ trace before = trace w ++ Send (content_start w) accepted :: calls
    /\ sends calls = map (audio_event w) frames.
Proof.
  intros Hs Ha Hbg Hin.
  unfold start_conversation.
  unfold bind at 1. rewrite setup_audio_streams_run.
  set (w1 := set_output_stream _ _).
  unfold bind at 1. unfold send_audio_content_start, bind at 1, get at 1.
  rewrite (send_raw_event_live env (content_start w1) w1 Hs Ha).
  unfold bind at 1, create_task at 1, modify at 1.
  unfold bind at 1. rewrite start_input_stream_run.
  match goal with
  | |- context [usable (input_stream ?x)] =>
      assert (Hin1 : usable (input_stream x) = true)
        by (unfold w1; destruct w; cbn; destruct (input_open_ok audio);
            [ reflexivity | exact Hin ]);
        rewrite Hin1
  end.
  unfold bind at 1, modify at 1.
  set (w4 := set_input_stream _ _).
  destruct (background_all_audio_only env during w4 Hbg)
    as (Hid & calls & frames & Ht & Hsends).
  destruct (background_all_keeps_devices env during w4 Hbg) as [Ein Eout].
  set (before := perform_all env during w4) in *.
  assert (Hbin : usable (input_stream before) = true)
    by (rewrite Ein; unfold w4; cbn [input_stream set_input_stream];
        apply usable_started).
  assert (Hbout : usable (output_stream before)
                  = (input_open_ok audio && output_open_ok audio
                     || usable (output_stream w)))
    by (rewrite Eout; unfold w4, w1; destruct w; cbn;
        destruct (input_open_ok audio && output_open_ok audio); reflexivity).
  exists before, calls, frames, (accepted_next env w1).
  split; [ | split; [ | exact Hsends ] ].
  - rewrite <- Hbout. unfold bind at 1.
    destruct (usable (output_stream before)) eqn:Hout.
    + rewrite stop_conversation_run by assumption. reflexivity.
    + rewrite stop_conversation_raises_output by assumption. reflexivity.
  - rewrite Ht. unfold w4, w1.
    cbn [trace set_trace set_playback_task set_output_stream set_input_stream].
    rewrite <- app_assoc. reflexivity.
Qed.

(** With a closed input stream that could not be replaced,
    [start_stream()] raises. *)
Lemma start_conversation_closed_input (env : Env) (audio : Audio)
    (during : list action) (w : World) :
  stream_response w = true -> is_active w = true ->
  input_open_ok audio || usable (input_stream w) = false ->
  fst (start_conversation env audio during w) = Raise OSError.
Proof.
  intros Hs Ha Hin.
  unfold start_conversation.
  unfold bind at 1. rewrite setup_audio_streams_run.
  set (w1 := set_output_stream _ _).
  unfold bind at 1. unfold send_audio_content_start, bind at 1, get at 1.
  rewrite (send_raw_event_live env (content_start w1) w1 Hs Ha).
  unfold bind at 1, create_task at 1, modify at 1.
  unfold bind at 1. rewrite start_input_stream_run.
  match goal with
  | |- context [usable (input_stream ?x)] =>
      assert (Hin1 : usable (input_stream x) = false)
        by (unfold w1; destruct w; cbn; destruct (input_open_ok audio);
            [ discriminate Hin | exact Hin ]);
        rewrite Hin1
  end.
  reflexivity.
Qed.

(** X13.  A conversation run from the microphone on an active session,
    the tasks and the device callback doing anything they can while it
    waits for Enter.  When each device stream is one it could open or one
    that was not closed before, [start_conversation] returns normally, also
    when a device could not be opened, and leaves the session stopped, the
    playback task returned and no device stream running.  On the wire it
    put ContentStart(AUDIO, USER) followed by AudioInput events and nothing
    else: the turn it opened is never closed by a ContentEnd.  When a
    stream left closed by an earlier conversation could not be replaced,
    it raises [OSError] instead. *)
Theorem conversation_never_closes_its_turn (env : Env) (audio : Audio)
    (during : list action) (w : World) :
  stream_response w = true -> is_active w = true ->
  forallb is_background during = true ->
  let r := start_conversation env audio during w in
  if (input_open_ok audio || usable (input_stream w))
     && (input_open_ok audio && output_open_ok audio
         || usable (output_stream w))
  then
    fst r = Ok tt
    /\ is_active (snd r) = false
    /\ playback_task (snd r) = Finished
    /\ stopped (input_stream (snd r)) = true
    /\ stopped (output_stream (snd r)) = true
    /\ exists frames,
         sends (new_calls w (snd r))
         = content_start w :: map (audio_event w) frames
  else fst r = Raise OSError.
Proof.
  intros Hs Ha Hbg. cbv zeta.
  destruct (input_open_ok audio || usable (input_stream w)) eqn:Hin;
    cbn [andb];
    [ | apply start_conversation_closed_input; assumption ].
  destruct (start_conversation_run env audio during w Hs Ha Hbg Hin)
    as (before & calls & frames & accepted & E & Ht & Hsends).
  rewrite E.
  destruct (input_open_ok audio && output_open_ok audio
            || usable (output_stream w)); [ | reflexivity ].
  cbn [fst snd].
  split; [ reflexivity | ]. split; [ reflexivity | ]. split; [ reflexivity | ].
  split; [ apply stopped_closed | ]. split; [ apply stopped_closed | ].
  exists frames.
  rewrite (new_calls_app w _
             (Send (content_start w) accepted :: calls ++ teardown before)).
  - cbn [sends]. rewrite sends_app, sends_teardown, app_nil_r, Hsends.
    reflexivity.
  - cbn [trace set_trace set_playback_task]. rewrite Ht.
    rewrite <- app_assoc. reflexivity.
Qed.

Lemma conversation_never_closes_its_turn_witness :
  let env := all_accepted in
  let during :=
    [StepProcessAudioInput; CallInputCallback [x01; x02];
     StepProcessAudioInput; StepProcessResponses; StepPlayOutputAudio] in
  let r := start_conversation env (mkAudio true false) during (initialized env) in
  fst r = Ok tt /\ is_active (snd r) = false.
Proof.
  cbv zeta.
  assert (stream_response (initialized all_accepted) = true) as Hs
    by (vm_compute; reflexivity).
  assert (is_active (initialized all_accepted) = true) as Ha
    by (vm_compute; reflexivity).
  assert (forallb is_background
            [StepProcessAudioInput; CallInputCallback [x01; x02];
             StepProcessAudioInput; StepProcessResponses; StepPlayOutputAudio]
          = true) as Hbg
    by (vm_compute; reflexivity).
  pose proof
    (conversation_never_closes_its_turn all_accepted (mkAudio true false)
       [StepProcessAudioInput; CallInputCallback [x01; x02];
        StepProcessAudioInput; StepProcessResponses; StepPlayOutputAudio]
       (initialized all_accepted) Hs Ha Hbg) as H.
  cbv zeta in H.
  lazymatch type of H with
  | if ?c then _ else _ =>
      assert (E : c = true) by (vm_compute; reflexivity); rewrite E in H
  end.
  destruct H as (Hr & Hflag & _).
  split; [ exact Hr | exact Hflag ].
Defined.

(** ** Sessions that cannot send *)

(** X14.  [POST /conversation/audio] on a registered session that is no
    longer active (it was stopped, or its inbound loop has returned)
    reports success although nothing goes out: whatever the tasks do
    during the sleep, no event is handed to [send], neither ContentStart
    nor the audio nor ContentEnd, and the session stays inactive. *)
Theorem audio_request_on_inactive_session (env : Env)
    (request : Webhook.AudioMessage) (during : list action)
    (active_sessions : Webhook.sessions) (nova_sonic : World)
    (audio_bytes : list byte) :
  Webhook.dict_get (Webhook.session_id request) active_sessions = Some nova_sonic ->
  Base64.b64decode (Webhook.audio_base64 request) = inr audio_bytes ->
  is_active nova_sonic = false ->
  let sid := Webhook.session_id request in
  let r := Webhook.send_audio_message env request during active_sessions in
  fst r = Webhook.Returned sid
  /\ exists after,
       Webhook.dict_get sid (snd r) = Some after
       /\ sends (trace after) = sends (trace nova_sonic)
       /\ is_active after = false.
Proof.
  intros Hget Hdec Ha. cbv zeta.
  assert (E : exists after,
    (send_audio_content_start env ;;
     add_audio_chunk audio_bytes ;;
     modify (perform_all env during) ;;
     send_audio_content_end env) nova_sonic = (Ok tt, after)
    /\ sends (trace after) = sends (trace nova_sonic)
    /\ is_active after = false).
  { unfold send_audio_content_start, add_audio_chunk, send_audio_content_end.
    unfold bind at 1. unfold bind at 1, get at 1.
    rewrite inactive_send_raw_event by exact Ha.
    unfold bind at 1, modify at 1. unfold bind at 1, modify at 1.
    match goal with
    | |- context [perform_all env during ?x] =>
        destruct (inactive_perform_all env during x Ha) as [Ha' Hs']
    end.
    unfold bind at 1, get at 1.
    rewrite inactive_send_raw_event by exact Ha'.
    eexists. split; [ reflexivity | ]. split; [ exact Hs' | exact Ha' ]. }
  destruct E as (after & E & Hsends & Hflag).
  unfold Webhook.send_audio_message, Webhook.on_session, base64_b64decode.
  rewrite Hget, Hdec, E. cbn [fst snd].
  split; [ reflexivity | ]. exists after.
  split; [ apply WebhookFacts.dict_get_set_same | ]. split; assumption.
Qed.

Lemma audio_request_on_inactive_session_witness :
  let env := all_accepted in
  let request := Webhook.mkAudioMessage "AQID" "session-1" in
  let active_sessions := [("session-1", stopped_while_waiting env)] in
  let r :=
    Webhook.send_audio_message env request
      [StepProcessAudioInput; StepProcessAudioInput] active_sessions in
  fst r = Webhook.Returned "session-1".
Proof.
  cbv zeta.
  refine (proj1
    (audio_request_on_inactive_session all_accepted
       (Webhook.mkAudioMessage "AQID" "session-1")
       [StepProcessAudioInput; StepProcessAudioInput]
       [("session-1", stopped_while_waiting all_accepted)]
       (stopped_while_waiting all_accepted) [x01; x02; x03] _ _ _));
    vm_compute; reflexivity.
Defined.

(** X15.  A session object that was created but never initialised sends
    nothing: whatever is called on it short of [initialize_stream] (turn
    calls, captured audio, the device callback, stop, steps of tasks), no
    event is handed to [send] and it stays inactive.  This holds for every
    voice, region and identifiers, and whether or not the client could be
    built. *)
Theorem uninitialised_session_is_silent (env : Env)
    (voice region prompt content audio_content : string) (acts : list action) :
  let w := __init__ env voice region prompt content audio_content in
  let w' := perform_all env acts w in
  sends (trace w') = []
  /\ is_active w' = false
  /\ stream_response w' = false.
Proof.
  cbv zeta.
  set (w := __init__ env voice region prompt content audio_content).
  assert (Ha : is_active w = false)
    by (unfold w, __init__, run, _initialize_client;
        destruct (client_ok env); reflexivity).
  assert (Ht : sends (trace w) = [])
    by (unfold w, __init__, run, _initialize_client;
        destruct (client_ok env); reflexivity).
  assert (Hs : stream_response w = false)
    by (unfold w, __init__, run, _initialize_client;
        destruct (client_ok env); reflexivity).
  destruct (inactive_perform_all env acts w Ha) as [Ha' Hs'].
  split; [ rewrite Hs'; exact Ht | ]. split; [ exact Ha' | ].
  clear Ha Ht Ha' Hs'. clearbody w. revert w Hs.
  induction acts as [| a acts IH]; intros w Hs; cbn [perform_all].
  - exact Hs.
  - apply IH. clear IH.
    destruct a; cbn [perform]; unfold run.
    + unfold send_audio_content_start, bind, get.
      rewrite send_raw_event_idle by (rewrite Hs; reflexivity). exact Hs.
    + unfold send_audio_content_end, bind, get.
      rewrite send_raw_event_idle by (rewrite Hs; reflexivity). exact Hs.
    + exact Hs.
    + unfold _input_callback, bind, get.
      destruct (is_active w && negb (is_empty in_data)); exact Hs.
    + destruct (stop_conversation_effect env w)
        as (res & calls & ins & outs & E & _).
      rewrite E. exact Hs.
    + unfold _process_audio_input, bind, get, modify, ret. cbv beta iota.
      destruct (audio_input_task w); try exact Hs.
      * destruct (is_active w); exact Hs.
      * destruct (audio_input_queue w) as [| data rest]; [ exact Hs | ].
        destruct (is_empty (chunk_audio_bytes data)); [ exact Hs | ].
        rewrite send_raw_event_idle by (cbn; rewrite Hs; reflexivity). exact Hs.
    + destruct (dispatch_effect w) as (q & rest & t & E).
      unfold dispatch, run in E. rewrite E. exact Hs.
    + destruct (play_effect w) as (q & t & calls & E & _).
      unfold play, run in E. rewrite E. exact Hs.
Qed.
